(** * mist-api-wrapper: a model of [main.go]

    The program is a single-upstream reverse proxy.  [main.go] is glue
    over Go's standard library, so the development is laid out like the
    packages the program imports: each [Module] below carries the part
    of one Go package that [main.go] calls, written after that package's
    code, and the program itself follows under the names it has in
    [main.go].  Go strings are byte strings: they are [string] here, one
    [ascii] per byte. *)

From Stdlib Require Import ZArith String Ascii List Bool Lia DecimalString.
From stdpp Require Import base option gmap strings list.

Local Open Scope string_scope.
Local Open Scope Z_scope.

(** ** Bytes *)

Module bytes.

Definition code (c : ascii) : Z := Z.of_N (N_of_ascii c).

Definition between (lo hi c : ascii) : bool :=
  (code lo <=? code c) && (code c <=? code hi).

Definition isLower (c : ascii) : bool := between "a" "z" c.
Definition isUpper (c : ascii) : bool := between "A" "Z" c.
Definition isDigit (c : ascii) : bool := between "0" "9" c.

(** [toLower = 'a' - 'A'] in [net/textproto]. *)
Definition toLower : Z := code "a" - code "A".

Definition ofZ (z : Z) : ascii := ascii_of_N (Z.to_N (z mod 256)).

(** [c -= toLower] and [c += toLower] on a byte. *)
Definition sub (c : ascii) (d : Z) : ascii := ofZ (code c - d).
Definition add (c : ascii) (d : Z) : ascii := ofZ (code c + d).

Definition eqb (a b : ascii) : bool := Ascii.eqb a b.

(** ASCII lower-casing of one byte, as [strings.EqualFold] folds the
    ASCII letters. *)
Definition lower (c : ascii) : ascii := if isUpper c then add c toLower else c.

End bytes.

(** ** Package [net/textproto]: canonical header names *)

Module textproto.

(** [validHeaderFieldByte]: the token bytes of RFC 7230. *)
Definition validHeaderFieldByte (c : ascii) : bool :=
  bytes.isDigit c || bytes.isLower c || bytes.isUpper c ||
  existsb (bytes.eqb c)
    ["!"; "#"; "$"; "%"; "&"; "'"; "*"; "+"; "-"; "."; "^"; "_"; "`"; "|"; "~"]%char.

(** The first loop of [canonicalMIMEHeaderKey]: [None] when a byte that
    is neither a token byte nor a space is met (the key is returned as it
    is, [ok = false]), otherwise the final value of [noCanon]. *)
Fixpoint scanKey (noCanon : bool) (a : string) : option bool :=
  match a with
  | EmptyString => Some noCanon
  | String c rest =>
      if validHeaderFieldByte c then scanKey noCanon rest
      else if bytes.eqb c " " then scanKey true rest
      else None
  end.

(** The second loop: upper case for the first letter and after each
    dash, lower case elsewhere. *)
Fixpoint canonicalize (upper : bool) (a : string) : string :=
  match a with
  | EmptyString => EmptyString
  | String c rest =>
      let c' :=
        if upper && bytes.isLower c then bytes.sub c bytes.toLower
        else if negb upper && bytes.isUpper c then bytes.add c bytes.toLower
        else c in
      String c' (canonicalize (bytes.eqb c' "-") rest)
  end.

Definition canonicalMIMEHeaderKey (a : string) : string * bool :=
  match scanKey false a with
  | None => (a, false)
  | Some true => (a, true)
  | Some false => (canonicalize true a, true)
  end.

(** The quick check of [CanonicalMIMEHeaderKey]: [s] is the part still
    to scan, [whole] the key. *)
Fixpoint quickCheck (upper : bool) (s whole : string) : string :=
  match s with
  | EmptyString => whole
  | String c rest =>
      if negb (validHeaderFieldByte c) then whole
      else if upper && bytes.isLower c then fst (canonicalMIMEHeaderKey whole)
      else if negb upper && bytes.isUpper c then fst (canonicalMIMEHeaderKey whole)
      else quickCheck (bytes.eqb c "-") rest whole
  end.

Definition CanonicalMIMEHeaderKey (s : string) : string := quickCheck true s s.

End textproto.

(** ** Package [net/http]: header maps *)

(** [http.Header], like [textproto.MIMEHeader] under it, is
    [map[string][]string]. *)
Abbreviation MIMEHeader := (gmap string (list string)).

Module header.

(** [Header.Set]: the canonical key gets the single value. *)
Definition Set_ (h : MIMEHeader) (key value : string) : MIMEHeader :=
  <[textproto.CanonicalMIMEHeaderKey key := [value]]> h.

(** [Header.Del]: the canonical key is deleted. *)
Definition Del (h : MIMEHeader) (key : string) : MIMEHeader :=
  delete (textproto.CanonicalMIMEHeaderKey key) h.

(** [Header.Add]: the value is appended under the canonical key. *)
Definition Add (h : MIMEHeader) (key value : string) : MIMEHeader :=
  let k := textproto.CanonicalMIMEHeaderKey key in
  <[k := (default [] (h !! k) ++ [value])%list]> h.

(** [Header.Values]. *)
Definition Values (h : MIMEHeader) (key : string) : list string :=
  default [] (h !! textproto.CanonicalMIMEHeaderKey key).

(** [Header.Get]: the first value under the canonical key, or the empty
    string. *)
Definition Get (h : MIMEHeader) (key : string) : string :=
  match h !! textproto.CanonicalMIMEHeaderKey key with
  | Some (v :: _) => v
  | _ => EmptyString
  end.

End header.

(** ** Go strings: lengths, indexing and slicing

    Indices are Go [int]s.  Indexing and slicing outside the string is a
    run-time panic in Go: [byteAt] and [slice] return [None] there. *)

Module gostring.

Definition len (s : string) : Z := Z.of_nat (String.length s).

Fixpoint drop (n : nat) (s : string) : string :=
  match n, s with
  | O, _ => s
  | S n', String _ s' => drop n' s'
  | S _, EmptyString => EmptyString
  end.

Fixpoint take (n : nat) (s : string) : string :=
  match n, s with
  | O, _ => EmptyString
  | S n', String c s' => String c (take n' s')
  | S _, EmptyString => EmptyString
  end.

(** [s[i]]. *)
Definition byteAt (s : string) (i : Z) : option ascii :=
  if (0 <=? i) && (i <? len s) then String.get (Z.to_nat i) s else None.

(** [s[lo:hi]]. *)
Definition slice (s : string) (lo hi : Z) : option string :=
  if (0 <=? lo) && (lo <=? hi) && (hi <=? len s)
  then Some (take (Z.to_nat (hi - lo)) (drop (Z.to_nat lo) s))
  else None.

(** [s[lo:]]. *)
Definition sliceFrom (s : string) (lo : Z) : option string := slice s lo (len s).

(** [bytealg.IndexByteString]: the first index of [c], or -1. *)
Fixpoint IndexByte (s : string) (c : ascii) : Z :=
  match s with
  | EmptyString => -1
  | String a s' =>
      if bytes.eqb a c then 0
      else let i := IndexByte s' c in if i <? 0 then -1 else i + 1
  end.

(** [bytealg.LastIndexByteString]: the last index of [c], or -1. *)
Fixpoint LastIndexByte (s : string) (c : ascii) : Z :=
  match s with
  | EmptyString => -1
  | String a s' =>
      let i := LastIndexByte s' c in
      if 0 <=? i then i + 1 else if bytes.eqb a c then 0 else -1
  end.

(** [strings.HasPrefix] and [strings.HasSuffix]. *)
Definition HasPrefix (s pre : string) : bool :=
  (String.length pre <=? String.length s)%nat &&
  String.eqb (take (String.length pre) s) pre.

Definition HasSuffix (s suf : string) : bool :=
  (String.length suf <=? String.length s)%nat &&
  String.eqb (drop (String.length s - String.length suf) s) suf.

End gostring.

(** ** Package [unicode/utf8] *)

Module utf8.

Definition RuneError : Z := 0xFFFD.
Definition RuneSelf : Z := 0x80.
Definition UTFMax : Z := 4.

(** One entry of the table [first]: an ASCII byte, an invalid first
    byte, or the size of the sequence with the range accepted for its
    second byte. *)
Inductive firstInfo :=
| ascii_byte
| invalid_byte
| lead (size : nat) (lo hi : Z).

Definition first (b : Z) : firstInfo :=
  if b <? 0x80 then ascii_byte
  else if b <? 0xC2 then invalid_byte
  else if b <? 0xE0 then lead 2 0x80 0xBF
  else if b =? 0xE0 then lead 3 0xA0 0xBF
  else if b <? 0xED then lead 3 0x80 0xBF
  else if b =? 0xED then lead 3 0x80 0x9F
  else if b <? 0xF0 then lead 3 0x80 0xBF
  else if b =? 0xF0 then lead 4 0x90 0xBF
  else if b <? 0xF4 then lead 4 0x80 0xBF
  else if b =? 0xF4 then lead 4 0x80 0x8F
  else invalid_byte.

Definition continuation (b : Z) : bool := (0x80 <=? b) && (b <=? 0xBF).

(** [DecodeRuneInString]: the first rune of [s] and its width in bytes;
    [(RuneError, 0)] on the empty string and [(RuneError, 1)] on an
    invalid or short sequence. *)
Definition DecodeRuneInString (s : string) : Z * nat :=
  match s with
  | EmptyString => (RuneError, 0%nat)
  | String c0 rest =>
      let s0 := bytes.code c0 in
      match first s0 with
      | ascii_byte => (s0, 1%nat)
      | invalid_byte => (RuneError, 1%nat)
      | lead sz lo hi =>
          if (String.length s <? sz)%nat then (RuneError, 1%nat) else
          match rest with
          | EmptyString => (RuneError, 1%nat)
          | String c1 rest1 =>
              let s1 := bytes.code c1 in
              if (s1 <? lo) || (hi <? s1) then (RuneError, 1%nat)
              else if (sz <=? 2)%nat
              then (Z.lor (Z.shiftl (Z.land s0 0x1F) 6) (Z.land s1 0x3F), 2%nat)
              else
              match rest1 with
              | EmptyString => (RuneError, 1%nat)
              | String c2 rest2 =>
                  let s2 := bytes.code c2 in
                  if negb (continuation s2) then (RuneError, 1%nat)
                  else if (sz <=? 3)%nat
                  then (Z.lor (Z.lor (Z.shiftl (Z.land s0 0x0F) 12)
                                     (Z.shiftl (Z.land s1 0x3F) 6))
                              (Z.land s2 0x3F), 3%nat)
                  else
                  match rest2 with
                  | EmptyString => (RuneError, 1%nat)
                  | String c3 _ =>
                      let s3 := bytes.code c3 in
                      if negb (continuation s3) then (RuneError, 1%nat)
                      else (Z.lor (Z.lor (Z.lor (Z.shiftl (Z.land s0 0x07) 18)
                                                (Z.shiftl (Z.land s1 0x3F) 12))
                                         (Z.shiftl (Z.land s2 0x3F) 6))
                                  (Z.land s3 0x3F), 4%nat)
                  end
              end
          end
      end
  end.

(** [RuneStart]: the byte is not a continuation byte. *)
Definition RuneStart (b : Z) : bool := negb (Z.land b 0xC0 =? 0x80).

(** The loop of [DecodeLastRuneInString] that walks [start] back to a
    rune start, at most down to [lim]; [n] bounds the iterations. *)
Fixpoint backToStart (n : nat) (s : string) (start lim : Z) : Z :=
  match n with
  | O => start
  | S n' =>
      if start <? lim then start
      else match gostring.byteAt s start with
           | Some c => if RuneStart (bytes.code c) then start
                       else backToStart n' s (start - 1) lim
           | None => start
           end
  end.

(** [DecodeLastRuneInString]: the last rune of [s] and its width. *)
Definition DecodeLastRuneInString (s : string) : Z * nat :=
  let end_ := gostring.len s in
  if end_ =? 0 then (RuneError, 0%nat) else
  let r := match gostring.byteAt s (end_ - 1) with Some c => bytes.code c | None => 0 end in
  if r <? RuneSelf then (r, 1%nat) else
  let lim := Z.max 0 (end_ - UTFMax) in
  let start := Z.max 0 (backToStart 4 s (end_ - 2) lim) in
  let '(r, size) := DecodeRuneInString (gostring.drop (Z.to_nat start) s) in
  if start + Z.of_nat size =? end_ then (r, size) else (RuneError, 1%nat).

End utf8.

(** ** Package [unicode] *)

Module unicode.

(** [unicode.IsSpace]: the Latin-1 cases, then the rest of the property
    White_Space. *)
Definition IsSpace (r : Z) : bool :=
  if r <=? 0xFF
  then existsb (Z.eqb r) [0x09; 0x0A; 0x0B; 0x0C; 0x0D; 0x20; 0x85; 0xA0]
  else (r =? 0x1680) || ((0x2000 <=? r) && (r <=? 0x200A)) ||
       ((0x2028 <=? r) && (r <=? 0x2029)) || (r =? 0x202F) ||
       (r =? 0x205F) || (r =? 0x3000).

End unicode.

(** ** Package [strings] *)

Module strings.

(** The table [asciiSpace]. *)
Definition asciiSpace (c : ascii) : bool :=
  existsb (Z.eqb (bytes.code c)) [0x09; 0x0A; 0x0B; 0x0C; 0x0D; 0x20].

(** [indexFunc]: the byte index of the first rune [r] of [s] with
    [f r = truth], or -1.  [i] is the index of [s] in the whole string;
    every step consumes at least one byte, so [String.length s] steps are
    enough. *)
Fixpoint indexFuncFrom (fuel : nat) (f : Z -> bool) (truth : bool)
    (s : string) (i : Z) : Z :=
  match fuel with
  | O => -1
  | S fuel' =>
      match s with
      | EmptyString => -1
      | _ =>
          let '(r, size) := utf8.DecodeRuneInString s in
          if Bool.eqb (f r) truth then i
          else indexFuncFrom fuel' f truth (gostring.drop size s) (i + Z.of_nat size)
      end
  end.

Definition indexFunc (s : string) (f : Z -> bool) (truth : bool) : Z :=
  indexFuncFrom (String.length s) f truth s 0.

(** [lastIndexFunc]: [i] runs from [len(s)] down, one rune at a time. *)
Fixpoint lastIndexFuncFrom (fuel : nat) (f : Z -> bool) (truth : bool)
    (s : string) (i : Z) : Z :=
  match fuel with
  | O => -1
  | S fuel' =>
      if i <=? 0 then -1 else
      let '(r, size) := utf8.DecodeLastRuneInString (gostring.take (Z.to_nat i) s) in
      let i := i - Z.of_nat size in
      if Bool.eqb (f r) truth then i
      else lastIndexFuncFrom fuel' f truth s i
  end.

Definition lastIndexFunc (s : string) (f : Z -> bool) (truth : bool) : Z :=
  lastIndexFuncFrom (String.length s) f truth s (gostring.len s).

Definition TrimLeftFunc (s : string) (f : Z -> bool) : string :=
  let i := indexFunc s f false in
  if i =? -1 then EmptyString else gostring.drop (Z.to_nat i) s.

Definition TrimRightFunc (s : string) (f : Z -> bool) : string :=
  let i := lastIndexFunc s f false in
  let i :=
    match gostring.byteAt s i with
    | Some c =>
        if (0 <=? i) && (utf8.RuneSelf <=? bytes.code c)
        then i + Z.of_nat (snd (utf8.DecodeRuneInString (gostring.drop (Z.to_nat i) s)))
        else i + 1
    | None => i + 1
    end in
  gostring.take (Z.to_nat i) s.

Definition TrimFunc (s : string) (f : Z -> bool) : string :=
  TrimRightFunc (TrimLeftFunc s f) f.

(** The second loop of [TrimSpace], on [s = s[start:]]: [stop] walks
    back over trailing ASCII space. *)
Fixpoint trimStop (stop : nat) (s : string) : string :=
  match stop with
  | O => EmptyString
  | S n =>
      match String.get n s with
      | Some c =>
          if utf8.RuneSelf <=? bytes.code c
          then TrimRightFunc (gostring.take stop s) unicode.IsSpace
          else if asciiSpace c then trimStop n s
          else gostring.take stop s
      | None => EmptyString
      end
  end.

(** [strings.TrimSpace]: the ASCII fast path from both ends, and the
    Unicode-aware functions as soon as a byte outside ASCII is met. *)
Fixpoint TrimSpace (s : string) : string :=
  match s with
  | EmptyString => EmptyString
  | String c rest =>
      if utf8.RuneSelf <=? bytes.code c then TrimFunc s unicode.IsSpace
      else if asciiSpace c then TrimSpace rest
      else trimStop (String.length s) s
  end.

End strings.

(** ** Package [net] *)

Module net.

(** [*net.AddrError]. *)
Record AddrError := { Err : string; Addr : string }.

Definition missingPort : string := "missing port in address".
Definition tooManyColons : string := "too many colons in address".

(** What [SplitHostPort] returns: [host], [port] and [err] ([None] is
    Go's [nil]). *)
Definition addrErr (addr why : string) : string * string * option AddrError :=
  (EmptyString, EmptyString, Some {| Err := why; Addr := addr |}).

(** The tail of [SplitHostPort], after [host], [j] and [k] are set. *)
Definition splitTail (hostport host : string) (i j k : Z)
  : option (string * string * option AddrError) :=
  sj ← gostring.sliceFrom hostport j;
  if 0 <=? gostring.IndexByte sj "[" then Some (addrErr hostport "unexpected '[' in address") else
  sk ← gostring.sliceFrom hostport k;
  if 0 <=? gostring.IndexByte sk "]" then Some (addrErr hostport "unexpected ']' in address") else
  port ← gostring.sliceFrom hostport (i + 1);
  Some (host, port, None).

(** [net.SplitHostPort].  The outer [option] is [None] when an index or
    a slice expression of the function is out of range. *)
Definition SplitHostPort (hostport : string)
  : option (string * string * option AddrError) :=
  (* The port starts after the last colon. *)
  let i := gostring.LastIndexByte hostport ":" in
  if i <? 0 then Some (addrErr hostport missingPort) else
  c0 ← gostring.byteAt hostport 0;
  if bytes.eqb c0 "[" then
    (* Expect the first ']' just before the last ':'. *)
    let end_ := gostring.IndexByte hostport "]" in
    if end_ <? 0 then Some (addrErr hostport "missing ']' in address") else
    if end_ + 1 =? gostring.len hostport then
      (* There can't be a ':' behind the ']' now. *)
      Some (addrErr hostport missingPort)
    else if end_ + 1 =? i then
      (* The expected result. *)
      host ← gostring.slice hostport 1 end_;
      splitTail hostport host i 1 (end_ + 1)
    else
      (* Either ']' isn't followed by a colon, or it is followed by a
         colon that is not the last one. *)
      c ← gostring.byteAt hostport (end_ + 1);
      if bytes.eqb c ":" then Some (addrErr hostport tooManyColons)
      else Some (addrErr hostport missingPort)
  else
    host ← gostring.slice hostport 0 i;
    if 0 <=? gostring.IndexByte host ":" then Some (addrErr hostport tooManyColons)
    else splitTail hostport host i 0 0.

End net.

(** ** Package [net/url] *)

Module url.

(** The fields of [url.URL] that the proxy reads or writes. *)
Record URL := {
  Scheme : string;
  Host : string;
  Path : string;      (* path (relative paths may omit leading slash) *)
  RawPath : string;   (* encoded path hint *)
  RawQuery : string   (* encoded query values, without '?' *)
}.

(** [shouldEscape(c, encodePath)]: in a path only [?] is escaped among
    the reserved characters. *)
Definition shouldEscape (c : ascii) : bool :=
  if bytes.isLower c || bytes.isUpper c || bytes.isDigit c then false
  else if existsb (bytes.eqb c) ["-"; "_"; "."; "~"]%char then false
  else if existsb (bytes.eqb c) ["$"; "&"; "+"; ","; "/"; ":"; ";"; "="; "?"; "@"]%char
  then bytes.eqb c "?"
  else true.

Definition ishex (c : ascii) : bool :=
  bytes.isDigit c || bytes.between "a" "f" c || bytes.between "A" "F" c.

Definition unhex (c : ascii) : Z :=
  if bytes.isDigit c then bytes.code c - bytes.code "0"
  else if bytes.between "a" "f" c then bytes.code c - bytes.code "a" + 10
  else if bytes.between "A" "F" c then bytes.code c - bytes.code "A" + 10
  else 0.

Definition upperhex (n : Z) : ascii :=
  match String.get (Z.to_nat n) "0123456789ABCDEF" with
  | Some c => c
  | None => "0"%char
  end.

(** [validEncoded(s, encodePath)]. *)
Fixpoint validEncoded (s : string) : bool :=
  match s with
  | EmptyString => true
  | String c rest =>
      (existsb (bytes.eqb c)
         ["!"; "$"; "&"; "'"; "("; ")"; "*"; "+"; ","; ";"; "="; ":"; "@";
          "["; "]"; "%"]%char
       || negb (shouldEscape c))
      && validEncoded rest
  end.

(** [unescape(s, encodePath)]: [None] is the [EscapeError] for a [%]
    that two hexadecimal digits do not follow. *)
Fixpoint unescape (s : string) : option string :=
  match s with
  | EmptyString => Some EmptyString
  | String "%" (String h1 (String h2 rest)) =>
      if ishex h1 && ishex h2
      then t ← unescape rest;
           Some (String (bytes.ofZ (Z.lor (Z.shiftl (unhex h1) 4) (unhex h2))) t)
      else None
  | String "%" _ => None
  | String c rest => t ← unescape rest; Some (String c t)
  end.

(** [escape(s, encodePath)]. *)
Fixpoint escape (s : string) : string :=
  match s with
  | EmptyString => EmptyString
  | String c rest =>
      if shouldEscape c
      then String "%" (String (upperhex (Z.shiftr (bytes.code c) 4))
                         (String (upperhex (Z.land (bytes.code c) 15)) (escape rest)))
      else String c (escape rest)
  end.

(** The method [EscapedPath] of [URL]. *)
Definition EscapedPath (u : URL) : string :=
  let fromRaw :=
    if negb (String.eqb (RawPath u) EmptyString) && validEncoded (RawPath u)
    then match unescape (RawPath u) with
         | Some p => if String.eqb p (Path u) then Some (RawPath u) else None
         | None => None
         end
    else None in
  match fromRaw with
  | Some raw => raw
  | None => if String.eqb (Path u) "*" then "*" else escape (Path u)
  end.

End url.

(** ** Package [net/http]: requests and responses *)

Module Request.

(** The fields of [http.Request] that the program reads or writes; the
    body stream is the bytes it yields. *)
Record t := {
  Method : string;
  URL : url.URL;
  Header : MIMEHeader;
  Body : string;
  Host : string;
  RemoteAddr : string
}.

(** [req.Host = host] and the mutation of [req.Header] in place. *)
Definition withHost (req : t) (host : string) : t :=
  {| Method := Method req; URL := URL req; Header := Header req;
     Body := Body req; Host := host; RemoteAddr := RemoteAddr req |}.

Definition withHeader (req : t) (h : MIMEHeader) : t :=
  {| Method := Method req; URL := URL req; Header := h;
     Body := Body req; Host := Host req; RemoteAddr := RemoteAddr req |}.

End Request.

Module Response.

(** The fields of [http.Response] that the proxy relays. [BodyErr] is
    the error that ends the body stream after [Body] when reading it
    fails. *)
Record t := {
  StatusCode : Z;
  Header : MIMEHeader;
  Body : string;
  BodyErr : option string
}.

(** The mutation of [resp.Header] in place. *)
Definition withHeader (resp : t) (h : MIMEHeader) : t :=
  {| StatusCode := StatusCode resp; Header := h; Body := Body resp;
     BodyErr := BodyErr resp |}.

End Response.

(** ** Package [strconv] *)

Module strconv.

(** [strconv.Itoa]: the decimal form of an [int], as [%v] and [%d]
    print it. *)
Definition Itoa (i : Z) : string := NilZero.string_of_int (Z.to_int i).

End strconv.

(** ** The process: log, upstream calls, panics

    A handler runs against a response writer [W], the process log
    (package [log]'s standard logger, where the server's own messages go
    too) and the upstream.  A call of [log.Printf] is kept as its format
    and arguments. *)

Inductive LogArg :=
| ArgString (s : string)
| ArgInt (n : Z)
| ArgURL (u : url.URL)          (* printed by [u.String()] *)
| ArgElapsed.                   (* a [time.Duration] read off the clock *)

Record LogLine := { format : string; args : list LogArg }.

(** The steps of the proxy on one request, in the order they happen. *)
Inductive ProxyStep :=
| SentUpstream (outreq : Request.t)      (* [transport.RoundTrip] *)
| ResponseRewrite (res : Response.t)     (* [ModifyResponse] *)
| FailureTranslated (err : string).      (* [ErrorHandler] *)

Record World (W : Type) := {
  rw : W;
  stderr : list LogLine;
  steps : list ProxyStep
}.
Arguments rw {W}.
Arguments stderr {W}.
Arguments steps {W}.

Definition withRW {W W'} (w : World W) (x : W') : World W' :=
  {| rw := x; stderr := stderr w; steps := steps w |}.

(** How a Go call ends: it returns, or it panics with a value. *)
Inductive outcome (A : Type) :=
| Returned (a : A)
| Panicked (v : string).
Arguments Returned {A}.
Arguments Panicked {A}.

Definition M (W A : Type) : Type := World W -> outcome A * World W.

Definition ret {W A} (a : A) : M W A := fun w => (Returned a, w).

Definition bind {W A B} (m : M W A) (k : A -> M W B) : M W B :=
  fun w => match m w with
           | (Returned a, w') => k a w'
           | (Panicked v, w') => (Panicked v, w')
           end.

Definition panic {W A} (v : string) : M W A := fun w => (Panicked v, w).

Definition getRW {W} : M W W := fun w => (Returned (rw w), w).

Definition modifyRW {W} (f : W -> W) : M W unit :=
  fun w => (Returned tt, withRW w (f (rw w))).

Declare Scope go_scope.
Delimit Scope go_scope with go.
Notation "x <- m ;; k" := (bind m (fun x => k))
  (at level 100, m at next level, k at level 200, right associativity) : go_scope.
Notation "m ;; k" := (bind m (fun _ => k))
  (at level 100, k at level 200, right associativity) : go_scope.
Local Open Scope go_scope.

(** [log.Printf]. *)
Definition Printf {W} (fmt : string) (a : list LogArg) : M W unit :=
  fun w => (Returned tt,
            {| rw := rw w; stderr := (stderr w ++ [{| format := fmt; args := a |}])%list;
               steps := steps w |}).

Definition step {W} (e : ProxyStep) : M W unit :=
  fun w => (Returned tt, {| rw := rw w; stderr := stderr w; steps := (steps w ++ [e])%list |}).

(** ** Package [net/http]: response writers and handlers *)

Module http.

Definition StatusOK : Z := 200.
Definition StatusNoContent : Z := 204.
Definition StatusNotModified : Z := 304.
Definition StatusSwitchingProtocols : Z := 101.
Definition StatusBadGateway : Z := 502.

Definition ErrBodyNotAllowed : string := "http: request method or response status code does not allow body".
Definition ErrAbortHandler : string := "net/http: abort Handler".

(** The interface [http.ResponseWriter].  [Header()] hands out the
    header map itself, which the caller mutates: [SetHeader] stores the
    mutated map back.  [Write] returns its error ([None] is [nil]). *)
Class ResponseWriter (W : Type) := {
  Header : W -> MIMEHeader;
  SetHeader : MIMEHeader -> W -> W;
  Write : string -> M W (option string);
  WriteHeader : Z -> M W unit
}.

(** [rw.Header().Set(k, v)], [rw.Header().Del(k)] and
    [rw.Header().Add(k, v)]. *)
Definition HeaderSet {W} `{ResponseWriter W} (key value : string) : M W unit :=
  modifyRW (fun x => SetHeader (header.Set_ (Header x) key value) x).

Definition HeaderDel {W} `{ResponseWriter W} (key : string) : M W unit :=
  modifyRW (fun x => SetHeader (header.Del (Header x) key) x).

(** [http.Handler]: [ServeHTTP(rw, req)] for any response writer. *)
Definition Handler : Type := forall W, ResponseWriter W -> Request.t -> M W unit.

(** *** The server's response writer ([*http.response]) *)

(** The state of the writer is what the handler has handed to the
    connection.  How the connection frames it on the wire (content
    length, chunking, headers of its own such as Date) is below this
    model; [bodySent] below gives the body bytes that go out. *)
Record response := {
  handlerHeader : MIMEHeader;             (* the map [Header()] returns *)
  wroteHeader : bool;
  status : Z;                             (* the status of the header sent *)
  sentHeader : MIMEHeader;                (* the headers sent with it *)
  informational : list (Z * MIMEHeader);  (* 1xx responses sent before it *)
  written : string                        (* the body bytes written *)
}.

(** The response writer the server makes for a request. *)
Definition newResponse : response :=
  {| handlerHeader := empty; wroteHeader := false; status := 0;
     sentHeader := empty; informational := []; written := EmptyString |}.

Definition bodyAllowedForStatus (status : Z) : bool :=
  if (100 <=? status) && (status <=? 199) then false
  else if status =? StatusNoContent then false
  else if status =? StatusNotModified then false
  else true.

(** The method [WriteHeader] of [response]: a call after the header is
    written is logged and ignored; a code outside 100..999 panics with a
    message that names the code; a 1xx
    code other than 101 sends an informational response and leaves the
    final header to come. *)
Definition response_WriteHeader (code : Z) : M response unit :=
  w <- getRW;;
  if wroteHeader w then Printf "http: superfluous response.WriteHeader call" []
  else if (code <? 100) || (999 <? code)
       then panic ("invalid WriteHeader code " +:+ strconv.Itoa code)
  else if (100 <=? code) && (code <=? 199) && negb (code =? StatusSwitchingProtocols)
  then modifyRW (fun w =>
         {| handlerHeader := handlerHeader w; wroteHeader := wroteHeader w;
            status := status w; sentHeader := sentHeader w;
            informational := (informational w ++ [(code, handlerHeader w)])%list;
            written := written w |})
  else modifyRW (fun w =>
         {| handlerHeader := handlerHeader w; wroteHeader := true;
            status := code; sentHeader := handlerHeader w;
            informational := informational w; written := written w |}).

(** The method [Write] of [response]: the first write sends the header
    with status 200 when none was sent. *)
Definition response_Write (data : string) : M response (option string) :=
  w <- getRW;;
  (if wroteHeader w then ret tt else response_WriteHeader StatusOK);;
  w <- getRW;;
  if gostring.len data =? 0 then ret None
  else if negb (bodyAllowedForStatus (status w)) then ret (Some ErrBodyNotAllowed)
  else
    modifyRW (fun w =>
      {| handlerHeader := handlerHeader w; wroteHeader := wroteHeader w;
         status := status w; sentHeader := sentHeader w;
         informational := informational w; written := written w +:+ data |});;
    ret None.

#[global] Instance response_ResponseWriter : ResponseWriter response := {
  Header w := handlerHeader w;
  SetHeader h w :=
    {| handlerHeader := h; wroteHeader := wroteHeader w; status := status w;
       sentHeader := sentHeader w; informational := informational w;
       written := written w |};
  Write := response_Write;
  WriteHeader := response_WriteHeader
}.

(** The method [Write] of [chunkWriter], through which the bytes
    written to a [response] reach the connection: in the answer to a
    HEAD request they are counted and dropped. *)
Definition chunkWriter_Write (req : Request.t) (p : string) : string :=
  if String.eqb (Request.Method req) "HEAD" then EmptyString else p.

(** The body bytes the client of [req] is sent. *)
Definition bodySent (req : Request.t) (w : response) : string :=
  chunkWriter_Write req (written w).

(** The method [finishRequest] of [response]: a handler that wrote
    nothing still gets its header sent, with status 200. *)
Definition finishRequest : M response unit :=
  w <- getRW;;
  if wroteHeader w then ret tt else response_WriteHeader StatusOK.

(** The format of the line the server logs for a handler that
    panicked. *)
Definition panicServingFormat : string :=
  "http: panic serving %v: %v" +:+ String "010" "%s".

(** One request on a connection: a new response writer, the handler,
    then [finishRequest].  A panic of the handler ends the connection
    without [finishRequest]; the server recovers from it and logs it,
    unless the value is [ErrAbortHandler]. *)
Definition serve (handler : Handler) (req : Request.t) (log : list LogLine)
  : outcome unit * World response :=
  match (handler response _ req;; finishRequest)
          {| rw := newResponse; stderr := log; steps := [] |} with
  | (Returned x, w) => (Returned x, w)
  | (Panicked v, w) =>
      if String.eqb v ErrAbortHandler then (Panicked v, w)
      else (Panicked v,
            snd (Printf panicServingFormat
                   [ArgString (Request.RemoteAddr req); ArgString v] w))
  end.

(** [http.Error]. *)
Definition Error {W} `{ResponseWriter W} (error : string) (code : Z) : M W unit :=
  HeaderDel "Content-Length";;
  HeaderSet "Content-Type" "text/plain; charset=utf-8";;
  HeaderSet "X-Content-Type-Options" "nosniff";;
  WriteHeader code;;
  _ <- Write (error +:+ String "010" EmptyString);;   (* fmt.Fprintln *)
  ret tt.

(** [ServeMux] with the two patterns [main] registers: the pattern
    [/health] matches that path and no other, and [/] matches every
    path.  (A path that is not in canonical form is answered by the mux
    itself with a redirect before any handler is picked; the path
    [/health] is canonical, and the statements about the mux below are
    made for it.) *)
Definition ServeMux (health rest : Handler) : Handler :=
  fun W _ req =>
    if String.eqb (url.Path (Request.URL req)) "/health"
    then health W _ req
    else rest W _ req.

End http.

(** ** Package [net/http/httputil]: the single-host reverse proxy *)

Module httputil.

Definition singleJoiningSlash (a b : string) : string :=
  let aslash := gostring.HasSuffix a "/" in
  let bslash := gostring.HasPrefix b "/" in
  if aslash && bslash then a +:+ gostring.drop 1 b
  else if negb aslash && negb bslash then a +:+ "/" +:+ b
  else a +:+ b.

Definition joinURLPath (a b : url.URL) : string * string :=
  if String.eqb (url.RawPath a) EmptyString && String.eqb (url.RawPath b) EmptyString
  then (singleJoiningSlash (url.Path a) (url.Path b), EmptyString) else
  (* Same as singleJoiningSlash, but uses EscapedPath to determine
     whether a slash should be added *)
  let apath := url.EscapedPath a in
  let bpath := url.EscapedPath b in
  let aslash := gostring.HasSuffix apath "/" in
  let bslash := gostring.HasPrefix bpath "/" in
  if aslash && bslash
  then (url.Path a +:+ gostring.drop 1 (url.Path b), apath +:+ gostring.drop 1 bpath)
  else if negb aslash && negb bslash
  then (url.Path a +:+ "/" +:+ url.Path b, apath +:+ "/" +:+ bpath)
  else (url.Path a +:+ url.Path b, apath +:+ bpath).

(** [rewriteRequestURL], the director that [NewSingleHostReverseProxy]
    installs (Go 1.20 and later). *)
Definition rewriteRequestURL (req : Request.t) (target : url.URL) : Request.t :=
  let targetQuery := url.RawQuery target in
  let u := Request.URL req in
  let joined := joinURLPath target u in
  let rawquery :=
    if String.eqb targetQuery EmptyString || String.eqb (url.RawQuery u) EmptyString
    then targetQuery +:+ url.RawQuery u
    else targetQuery +:+ "&" +:+ url.RawQuery u in
  {| Request.Method := Request.Method req;
     Request.URL := {| url.Scheme := url.Scheme target;
                       url.Host := url.Host target;
                       url.Path := fst joined;
                       url.RawPath := snd joined;
                       url.RawQuery := rawquery |};
     Request.Header := Request.Header req;
     Request.Body := Request.Body req;
     Request.Host := Request.Host req;
     Request.RemoteAddr := Request.RemoteAddr req |}.


(** [httputil.ReverseProxy]: the three hooks [main.go] sets.  [None] is
    a [nil] hook.  [ModifyResponse] mutates the response and returns its
    error. *)
Record ReverseProxy := {
  Director : Request.t -> Request.t;
  ModifyResponse : option (Response.t -> Response.t * option string);
  ErrorHandler :
    option (forall W, http.ResponseWriter W -> Request.t -> string -> M W unit)
}.

Definition NewSingleHostReverseProxy (target : url.URL) : ReverseProxy :=
  {| Director := fun req => rewriteRequestURL req target;
     ModifyResponse := None;
     ErrorHandler := None |}.

Definition defaultErrorHandler
  : forall W, http.ResponseWriter W -> Request.t -> string -> M W unit :=
  fun W _ _ err =>
    Printf "http: proxy error: %v" [ArgString err];;
    http.WriteHeader http.StatusBadGateway.

Definition getErrorHandler (p : ReverseProxy)
  : forall W, http.ResponseWriter W -> Request.t -> string -> M W unit :=
  fun W _ req err =>
    step (FailureTranslated err);;
    match ErrorHandler p with
    | Some h => h W _ req err
    | None => defaultErrorHandler W _ req err
    end.

(** [modifyResponse]: [false] when the hook failed and the error handler
    has answered. *)
Definition modifyResponse (p : ReverseProxy) {W} `{http.ResponseWriter W}
    (res : Response.t) (req : Request.t) : M W (Response.t * bool) :=
  match ModifyResponse p with
  | None => ret (res, true)
  | Some f =>
      step (ResponseRewrite res);;
      match f res with
      | (res', Some err) => getErrorHandler p W _ req err;; ret (res', false)
      | (res', None) => ret (res', true)
      end
  end.

(** [copyHeader(dst, src)]. *)
Definition copyHeader (dst src : MIMEHeader) : MIMEHeader :=
  map_fold (fun k vv d => fold_left (fun d v => header.Add d k v) vv d) dst src.

(** The message of [context.Canceled], and the format of the line
    [copyBuffer] logs for any other error of a read from the upstream's
    body. *)
Definition contextCanceled : string := "context canceled".
Definition readErrorFormat : string :=
  "httputil: ReverseProxy read error during body copy: %v".

(** [ReverseProxy.ServeHTTP] as far as the hooks go: the director on the
    outbound copy of the request, the round trip, then either the error
    handler or [ModifyResponse] and the relay of status, headers and
    body; a body that breaks off is logged and aborts the handler.
    [transport] is the upstream as the proxy meets it: a response, or
    the error of a round trip that brought none.  The library's own work
    between these steps (the hop-by-hop headers it removes itself from
    the outbound request and from the response before the hook, the
    X-Forwarded-For and User-Agent headers it adds to the outbound
    request, informational and upgrade responses, trailers) is not part
    of the model; no statement below depends on it. *)
Definition ServeHTTP (p : ReverseProxy) (transport : Request.t -> Response.t + string)
  : http.Handler :=
  fun W _ req =>
    let outreq := Director p req in
    step (SentUpstream outreq);;
    match transport outreq with
    | inr err => getErrorHandler p W _ outreq err
    | inl res =>
        r <- modifyResponse p res outreq;;
        let '(res, ok) := r in
        if negb ok then ret tt else
        modifyRW (fun x => http.SetHeader (copyHeader (http.Header x) (Response.Header res)) x);;
        http.WriteHeader (Response.StatusCode res);;
        err <- http.Write (Response.Body res);;
        match err with
        | Some _ => panic http.ErrAbortHandler
        | None =>
            match Response.BodyErr res with
            | None => ret tt
            | Some rerr =>
                (if String.eqb rerr contextCanceled then ret tt
                 else Printf readErrorFormat [ArgString rerr]);;
                panic http.ErrAbortHandler
            end
        end
    end.

End httputil.

(** * [main.go] *)

Definition defaultListenAddr : string := ":8080".
Definition envBaseURL : string := "MIST_BASE_URL".
Definition envToken : string := "MIST_API_TOKEN".
Definition envListenAddr : string := "MIST_LISTEN_ADDR".

(** The slice [stripHopHeaders] ranges over. *)
Definition hopHeaders : list string :=
  [ "Connection"; "Keep-Alive"; "Proxy-Authenticate"; "Proxy-Authorization";
    "Te"; "Trailer"; "Transfer-Encoding"; "Upgrade" ].

Definition stripHopHeaders (h : MIMEHeader) : MIMEHeader :=
  fold_left header.Del hopHeaders h.

(** The message of the 502 answer and the format of the log line that
    goes with it. *)
Definition upstreamFailedMessage : string := "アップストリームへの接続に失敗しました".
Definition proxyErrorFormat : string := "プロキシエラー: %v".

Definition newMistProxy (target : url.URL) (token : string) : httputil.ReverseProxy :=
  let proxy := httputil.NewSingleHostReverseProxy target in
  let originalDirector := httputil.Director proxy in
  {| httputil.Director := fun req =>
       let req := originalDirector req in
       let req := Request.withHost req (url.Host target) in
       let req := Request.withHeader req
                    (header.Set_ (Request.Header req) "Authorization" ("Token " +:+ token)) in
       let req := Request.withHeader req
                    (header.Set_ (Request.Header req) "Accept" "application/json") in
       Request.withHeader req (stripHopHeaders (Request.Header req));
     httputil.ModifyResponse := Some (fun resp =>
       (Response.withHeader resp (stripHopHeaders (Response.Header resp)), None));
     httputil.ErrorHandler := Some (fun W _ req err =>
       Printf proxyErrorFormat [ArgString err];;
       http.Error upstreamFailedMessage http.StatusBadGateway) |}.

(** The body of the health answer, [{"status":"ok"}]. *)
Definition healthBody : string :=
  let q := String "034" EmptyString in
  "{" +:+ q +:+ "status" +:+ q +:+ ":" +:+ q +:+ "ok" +:+ q +:+ "}".

Definition healthHandler : http.Handler :=
  fun W _ _ =>
    http.HeaderSet "Content-Type" "application/json";;
    _ <- http.Write healthBody;;
    ret tt.

(** [loggingResponseWriter]: the embedded writer and the status code. *)
Record loggingResponseWriter (W : Type) := {
  ResponseWriter : W;
  statusCode : Z
}.
Arguments ResponseWriter {W}.
Arguments statusCode {W}.

(** A call on the embedded writer, from a method of the wrapper. *)
Definition embedded {W A} (m : M W A) : M (loggingResponseWriter W) A :=
  fun w =>
    let lrw := rw w in
    let '(o, w') := m (withRW w (ResponseWriter lrw)) in
    (o, withRW w' {| ResponseWriter := rw w'; statusCode := statusCode lrw |}).

(** The method [WriteHeader] of [loggingResponseWriter]. *)
Definition loggingResponseWriter_WriteHeader {W} `{http.ResponseWriter W} (code : Z)
  : M (loggingResponseWriter W) unit :=
  modifyRW (fun lrw => {| ResponseWriter := ResponseWriter lrw; statusCode := code |});;
  embedded (http.WriteHeader code).

(** [Header] and [Write] are the embedded writer's, promoted. *)
#[global] Instance loggingResponseWriter_ResponseWriter {W} `{http.ResponseWriter W}
  : http.ResponseWriter (loggingResponseWriter W) := {
  http.Header lrw := http.Header (ResponseWriter lrw);
  http.SetHeader h lrw :=
    {| ResponseWriter := http.SetHeader h (ResponseWriter lrw);
       statusCode := statusCode lrw |};
  http.Write data := embedded (http.Write data);
  http.WriteHeader := loggingResponseWriter_WriteHeader
}.

Definition accessLogFormat : string := "%s %s %d %s from %s".

(** The first lines of the middleware: the host of [req.RemoteAddr], or
    the address itself when it does not split.  [None] is a panic inside
    [net.SplitHostPort]. *)
Definition remoteIPOf (remoteAddr : string) : option string :=
  r ← net.SplitHostPort remoteAddr;
  let '(remoteIP, _, err) := r in
  Some (match err with Some _ => remoteAddr | None => remoteIP end).

Definition loggingMiddleware (next : http.Handler) : http.Handler :=
  fun W _ req w =>
    (* start := time.Now() *)
    match remoteIPOf (Request.RemoteAddr req) with
    | None => (Panicked "index out of range", w)
    | Some remoteIP =>
        let lrw := {| ResponseWriter := rw w; statusCode := http.StatusOK |} in
        match next (loggingResponseWriter W) _ req (withRW w lrw) with
        | (Returned _, w') =>
            Printf accessLogFormat
              [ArgString (Request.Method req); ArgURL (Request.URL req);
               ArgInt (statusCode (rw w')); ArgElapsed; ArgString remoteIP]
              (withRW w' (ResponseWriter (rw w')))
        | (Panicked v, w') => (Panicked v, withRW w' (ResponseWriter (rw w')))
        end
    end.

(** The handler [main] gives the server: the mux with [/health] and
    [/], inside the logging middleware. *)
Definition handler (target : url.URL) (token : string)
    (transport : Request.t -> Response.t + string) : http.Handler :=
  let proxy := httputil.ServeHTTP (newMistProxy target token) transport in
  let mux := http.ServeMux healthHandler proxy in
  loggingMiddleware mux.

(** What [main] comes to before it serves: [log.Fatalf], or a server
    listening on [Addr] for the upstream [target] with the credential
    [token]. *)
Inductive Startup :=
| Fatalf (fmt : string) (a : list LogArg)
| ListenAndServe (Addr : string) (target : url.URL) (token : string).

(** The formats of the two fatal messages. *)
Definition missingEnvFormat : string := "環境変数 %s と %s を設定してください".
Definition parseFailedFormat : string := "ベースURLの解析に失敗しました: %v".

Section Main.

(** [url.Parse]: the URL, or the error. *)
Variable url_Parse : string -> url.URL + string.

(** [os.Getenv] on the environment of the process. *)
Definition Getenv (env : gmap string string) (key : string) : string :=
  default EmptyString (env !! key).

Definition main (env : gmap string string) : Startup :=
  let baseURL := strings.TrimSpace (Getenv env envBaseURL) in
  let token := strings.TrimSpace (Getenv env envToken) in
  let listenAddr := strings.TrimSpace (Getenv env envListenAddr) in
  let listenAddr :=
    if String.eqb listenAddr EmptyString then defaultListenAddr else listenAddr in
  if String.eqb baseURL EmptyString || String.eqb token EmptyString
  then Fatalf missingEnvFormat [ArgString envBaseURL; ArgString envToken]
  else match url_Parse baseURL with
       | inr err => Fatalf parseFailedFormat [ArgString err]
       | inl target => ListenAndServe listenAddr target token
       end.

End Main.

(** A handler given by the calls it makes on its response writer: any
    run of a handler that returns is one such list. *)
Inductive WriterCall :=
| CallHeaderSet (key value : string)
| CallHeaderDel (key : string)
| CallWriteHeader (code : Z)
| CallWrite (data : string).

Definition call {W} `{http.ResponseWriter W} (c : WriterCall) : M W unit :=
  match c with
  | CallHeaderSet k v => http.HeaderSet k v
  | CallHeaderDel k => http.HeaderDel k
  | CallWriteHeader code => http.WriteHeader code
  | CallWrite data => _ <- http.Write data;; ret tt
  end.

Fixpoint calls {W} `{http.ResponseWriter W} (cs : list WriterCall) : M W unit :=
  match cs with
  | [] => ret tt
  | c :: cs' => call c;; calls cs'
  end.

Definition handlerOf (cs : list WriterCall) : http.Handler :=
  fun W _ _ => calls cs.

(** ASCII case-insensitive equality of two names: what "the same name
    under another letter-casing" means. *)
Fixpoint EqualFold (s t : string) : bool :=
  match s, t with
  | EmptyString, EmptyString => true
  | String a s', String b t' => bytes.eqb (bytes.lower a) (bytes.lower b) && EqualFold s' t'
  | _, _ => false
  end.

(** The eight hop-by-hop header names, as the specification lists
    them. *)
Definition hopHeaderNames : list string :=
  [ "Connection"; "Keep-Alive"; "Proxy-Authenticate"; "Proxy-Authorization";
    "TE"; "Trailer"; "Transfer-Encoding"; "Upgrade" ].

(** [k] is one of the eight names under some letter-casing. *)
Definition isHopName (k : string) : bool := existsb (EqualFold k) hopHeaderNames.

(** The names of a header map are in canonical form, as
    [CanonicalHeaderKey] returns them: the form in which the server and
    the transport deliver the headers they parse. *)
Definition canonicalKeys (h : MIMEHeader) : Prop :=
  map_Forall (fun k _ => textproto.CanonicalMIMEHeaderKey k = k) h.

(** * Definitions for the statements

    Named inputs, predicates and expected values the theorems below are
    stated with. *)

(** [needsCanon u s]: the quick check meets a letter in the wrong case
    before any byte that is not a token byte. *)
Fixpoint needsCanon (u : bool) (s : string) : bool :=
  match s with
  | EmptyString => false
  | String c rest =>
      if negb (textproto.validHeaderFieldByte c) then false
      else if u && bytes.isLower c then true
      else if negb u && bytes.isUpper c then true
      else needsCanon (bytes.eqb c "-") rest
  end.

Fixpoint allValid (s : string) : bool :=
  match s with
  | EmptyString => true
  | String c rest => textproto.validHeaderFieldByte c && allValid rest
  end.

Definition sampleHeader : MIMEHeader :=
  {[ "Connection" := ["keep-alive"; "Upgrade"];
     "Upgrade" := ["websocket"];
     "X-Request-Id" := ["7"; "8"] ]}.

Definition mistTarget : url.URL :=
  {| url.Scheme := "https"; url.Host := "api.mist.com"; url.Path := "/api/v1";
     url.RawPath := EmptyString; url.RawQuery := EmptyString |}.

Definition sitesRequest : Request.t :=
  {| Request.Method := "GET";
     Request.URL := {| url.Scheme := EmptyString; url.Host := EmptyString;
                       url.Path := "/sites"; url.RawPath := EmptyString;
                       url.RawQuery := "limit=10" |};
     Request.Header := {[ "Authorization" := ["Bearer client"];
                          "Connection" := ["keep-alive"];
                          "X-Request-Id" := ["7"] ]};
     Request.Body := EmptyString;
     Request.Host := "proxy.internal:8080";
     Request.RemoteAddr := "192.0.2.7:51234" |}.

(** The upstream base URL names an origin only: no path (or the root
    path) and no query. *)
Definition bareOrigin (target : url.URL) : Prop :=
  (url.Path target = EmptyString \/
   (url.Path target = "/" /\ url.RawPath target = EmptyString)) /\
  url.RawQuery target = EmptyString.

(** The path of a request in origin form begins with a slash, and so
    does its encoded form when the URL keeps one. *)
Definition originForm (u : url.URL) : Prop :=
  gostring.HasPrefix (url.Path u) "/" = true /\
  (url.RawPath u = EmptyString \/ gostring.HasPrefix (url.RawPath u) "/" = true).

Definition originTarget : url.URL :=
  {| url.Scheme := "https"; url.Host := "api.mist.com"; url.Path := EmptyString;
     url.RawPath := EmptyString; url.RawQuery := EmptyString |}.

(** [c] does not occur in [s]. *)
Definition lacks (s : string) (c : ascii) : bool := gostring.IndexByte s c <? 0.

(** The string holds no rune that is not white space, decoded as Go
    decodes it. *)
Definition whitespaceOnly (s : string) : Prop :=
  strings.indexFunc s unicode.IsSpace false = -1.

(** Every byte is one of the six ASCII white space bytes. *)
Fixpoint asciiSpaces (s : string) : bool :=
  match s with
  | EmptyString => true
  | String c rest => strings.asciiSpace c && asciiSpaces rest
  end.

(** An ASCII byte that is not white space. *)
Definition solid (c : ascii) : bool :=
  negb (utf8.RuneSelf <=? bytes.code c) && negb (strings.asciiSpace c).

(** The listen address [main] settles on. *)
Definition listenAddrOf (env : gmap string string) : string :=
  let listenAddr := strings.TrimSpace (Getenv env envListenAddr) in
  if String.eqb listenAddr EmptyString then defaultListenAddr else listenAddr.

Definition blankTokenEnv : gmap string string :=
  {[ envBaseURL := " https://api.mist.com ";
     envToken := "   ";
     envListenAddr := ":9090" ]}.

Definition paddedEnv : gmap string string :=
  {[ envBaseURL := " https://api.mist.com ";
     envToken := " secret" +:+ String "010" EmptyString;
     envListenAddr := "  " ]}.

(** A stand-in for [url.Parse] that accepts one URL. *)
Definition parseMist (s : string) : url.URL + string :=
  if String.eqb s "https://api.mist.com"
  then inl {| url.Scheme := "https"; url.Host := "api.mist.com";
              url.Path := EmptyString; url.RawPath := EmptyString;
              url.RawQuery := EmptyString |}
  else inr "parse error".

(** The access log line for a request answered with [code]. *)
Definition accessLine (req : Request.t) (code : Z) (remoteIP : string) : LogLine :=
  {| format := accessLogFormat;
     args := [ArgString (Request.Method req); ArgURL (Request.URL req);
              ArgInt code; ArgElapsed; ArgString remoteIP] |}.

(** What the client of [/health] is sent. *)
Definition healthResponse : http.response :=
  {| http.handlerHeader := {[ "Content-Type" := ["application/json"] ]};
     http.wroteHeader := true;
     http.status := 200;
     http.sentHeader := {[ "Content-Type" := ["application/json"] ]};
     http.informational := [];
     http.written := healthBody |}.

Definition healthRequest (method : string) : Request.t :=
  {| Request.Method := method;
     Request.URL := {| url.Scheme := EmptyString; url.Host := EmptyString;
                       url.Path := "/health"; url.RawPath := EmptyString;
                       url.RawQuery := EmptyString |};
     Request.Header := {[ "User-Agent" := ["probe/1.0"] ]};
     Request.Body := EmptyString;
     Request.Host := "proxy.internal:8080";
     Request.RemoteAddr := "192.0.2.7:51234" |}.

(** An upstream that cannot be reached. *)
Definition unreachable : Request.t -> Response.t + string :=
  fun _ => inr "dial tcp 203.0.113.9:443: connect: connection refused".

(** The headers [http.Error] sends. *)
Definition errorHeader : MIMEHeader :=
  {[ "Content-Type" := ["text/plain; charset=utf-8"];
     "X-Content-Type-Options" := ["nosniff"] ]}.

(** What the client is sent when the round trip fails. *)
Definition badGatewayResponse : http.response :=
  {| http.handlerHeader := errorHeader;
     http.wroteHeader := true;
     http.status := 502;
     http.sentHeader := errorHeader;
     http.informational := [];
     http.written := upstreamFailedMessage +:+ String "010" EmptyString |}.

Definition proxyErrorLine (err : string) : LogLine :=
  {| format := proxyErrorFormat; args := [ArgString err] |}.

(** An upstream whose response body breaks off: the relay aborts the
    handler after the header and the part of the body that arrived. *)
Definition brokenBody : Request.t -> Response.t + string :=
  fun _ => inl {| Response.StatusCode := 200;
                  Response.Header := {[ "Content-Type" := ["application/json"] ]};
                  Response.Body := "[{";
                  Response.BodyErr := Some "unexpected EOF" |}.

(** The code of the last [WriteHeader] among the calls, [d] when there
    is none. *)
Fixpoint lastWriteHeader (cs : list WriterCall) (d : Z) : Z :=
  match cs with
  | [] => d
  | CallWriteHeader code :: rest => lastWriteHeader rest code
  | _ :: rest => lastWriteHeader rest d
  end.

(** A 1xx code other than 101: [WriteHeader] sends an informational
    response for it and the final header is still to come. *)
Definition informationalCode (code : Z) : bool :=
  (100 <=? code) && (code <=? 199) && negb (code =? http.StatusSwitchingProtocols).

(** The status the client is sent: the code of the first [WriteHeader]
    that is not informational, or 200 when a [Write] comes first or the
    handler returns without either. *)
Fixpoint firstStatus (cs : list WriterCall) : Z :=
  match cs with
  | [] => http.StatusOK
  | CallWriteHeader code :: rest =>
      if informationalCode code then firstStatus rest else code
  | CallWrite _ :: _ => http.StatusOK
  | _ :: rest => firstStatus rest
  end.

Definition isWriteHeader (c : WriterCall) : bool :=
  match c with CallWriteHeader _ => true | _ => false end.

(** The handler calls [WriteHeader] at most once, with a final status,
    and not after it has written to the body. *)
Fixpoint writesHeaderOnce (cs : list WriterCall) : bool :=
  match cs with
  | [] => true
  | CallWriteHeader code :: rest =>
      negb (informationalCode code) && forallb (fun c => negb (isWriteHeader c)) rest
  | CallWrite _ :: rest => forallb (fun c => negb (isWriteHeader c)) rest
  | _ :: rest => writesHeaderOnce rest
  end.

(** The line the server logs for a [WriteHeader] that comes too late. *)
Definition superfluousLine : LogLine :=
  {| format := "http: superfluous response.WriteHeader call"; args := [] |}.

Definition twoHeaders : list WriterCall := [CallWriteHeader 200; CallWriteHeader 500].

Definition errorCalls : list WriterCall :=
  [CallHeaderDel "Content-Length";
   CallHeaderSet "Content-Type" "text/plain; charset=utf-8";
   CallWriteHeader 404;
   CallWrite "not found"].

(** [strings.TrimPrefix] and [strings.TrimSuffix]. *)
Definition TrimPrefix (s pre : string) : string :=
  if gostring.HasPrefix s pre then gostring.drop (String.length pre) s else s.

Definition TrimSuffix (s suf : string) : string :=
  if gostring.HasSuffix s suf
  then gostring.take (String.length s - String.length suf) s else s.

(** A client request that carries hop-by-hop headers and an Accept
    header of its own. *)
Definition upgradeRequest : Request.t :=
  {| Request.Method := "GET";
     Request.URL := {| url.Scheme := EmptyString; url.Host := EmptyString;
                       url.Path := "/sites"; url.RawPath := EmptyString;
                       url.RawQuery := EmptyString |};
     Request.Header := {[ "Accept" := ["text/html"; "*/*"];
                          "Connection" := ["Upgrade"];
                          "Upgrade" := ["websocket"];
                          "Proxy-Authorization" := ["Basic Zm9v"];
                          "X-Request-Id" := ["7"] ]};
     Request.Body := EmptyString;
     Request.Host := "proxy.internal:8080";
     Request.RemoteAddr := "192.0.2.7:51234" |}.

(** The headers the client is sent with a relayed response: the
    upstream's, after the response hook, copied into the writer's empty
    header map. *)
Definition relayedHeader (res : Response.t) : MIMEHeader :=
  httputil.copyHeader empty (stripHopHeaders (Response.Header res)).

(** What the client is sent when the upstream answers [res] and the
    whole body arrives. *)
Definition relayedResponse (res : Response.t) : http.response :=
  {| http.handlerHeader := relayedHeader res;
     http.wroteHeader := true;
     http.status := Response.StatusCode res;
     http.sentHeader := relayedHeader res;
     http.informational := [];
     http.written := Response.Body res |}.

(** The status is a final one, and the body fits it: a status that
    allows no body comes with none. *)
Definition relayable (res : Response.t) : Prop :=
  200 <= Response.StatusCode res <= 999 /\
  Response.BodyErr res = None /\
  (Response.Body res = EmptyString \/
   http.bodyAllowedForStatus (Response.StatusCode res) = true).

(** An upstream that answers a chunked response on a connection it
    means to close. *)
Definition chunkedUpstream : Request.t -> Response.t + string :=
  fun _ => inl {| Response.StatusCode := 404;
                  Response.Header := {[ "Content-Type" := ["application/json"];
                                        "Transfer-Encoding" := ["chunked"];
                                        "Connection" := ["close"] ]};
                  Response.Body := "{}";
                  Response.BodyErr := None |}.

(** A handler that sets a header and then calls [WriteHeader] with a
    code the server refuses. *)
Definition invalidCode : list WriterCall :=
  [CallHeaderSet "Content-Type" "text/plain"; CallWriteHeader 42].

(** * Theorems *)

Example canonical_te : textproto.CanonicalMIMEHeaderKey "TE" = "Te".
Proof. reflexivity. Qed.

Example canonical_mixed :
  textproto.CanonicalMIMEHeaderKey "proxy-AUTHORIZATION" = "Proxy-Authorization".
Proof. reflexivity. Qed.

Example canonical_space : textproto.CanonicalMIMEHeaderKey "keep alive" = "keep alive".
Proof. reflexivity. Qed.

(** * Canonical header names *)

(** One byte of the loop of [canonicalize]. *)
Lemma canonicalize_cons (u : bool) (c : ascii) (rest : string) :
  textproto.canonicalize u (String c rest) =
  String (match textproto.canonicalize u (String c EmptyString) with
          | String c' _ => c' | EmptyString => c end)
         (textproto.canonicalize
            (bytes.eqb (match textproto.canonicalize u (String c EmptyString) with
                        | String c' _ => c' | EmptyString => c end) "-") rest).
Proof. reflexivity. Qed.

Ltac each_byte c := destruct c as [[] [] [] [] [] [] [] []].

Lemma valid_lower (c : ascii) :
  textproto.validHeaderFieldByte (bytes.lower c) = textproto.validHeaderFieldByte c.
Proof. each_byte c; reflexivity. Qed.

Lemma canonicalize_byte_lower (u : bool) (c : ascii) :
  textproto.canonicalize u (String (bytes.lower c) EmptyString) =
  textproto.canonicalize u (String c EmptyString).
Proof. destruct u; each_byte c; reflexivity. Qed.

Lemma quickCheck_needsCanon (s whole : string) (u : bool) :
  textproto.quickCheck u s whole =
  if needsCanon u s then fst (textproto.canonicalMIMEHeaderKey whole) else whole.
Proof.
  revert u; induction s as [|c rest IH]; intros u; simpl; [reflexivity|].
  destruct (textproto.validHeaderFieldByte c); simpl; [|reflexivity].
  destruct (u && bytes.isLower c); [reflexivity|].
  destruct (negb u && bytes.isUpper c); [reflexivity|].
  apply IH.
Qed.

Lemma scanKey_allValid (s : string) :
  allValid s = true -> forall b, textproto.scanKey b s = Some b.
Proof.
  induction s as [|c rest IH]; simpl; intros H b; [reflexivity|].
  apply andb_true_iff in H as [Hc Hr]. rewrite Hc. now apply IH.
Qed.

Lemma scanKey_not_allValid (s : string) :
  allValid s = false -> forall b, textproto.scanKey b s <> Some false.
Proof.
  induction s as [|c rest IH]; simpl; intros H b; [discriminate|].
  destruct (textproto.validHeaderFieldByte c); simpl in H.
  - now apply IH.
  - destruct (bytes.eqb c " "); [|discriminate].
    clear IH H. revert b. induction rest as [|d rest IH]; simpl; [discriminate|].
    intros _. destruct (textproto.validHeaderFieldByte d); [apply (IH true)|].
    destruct (bytes.eqb d " "); [apply (IH true)|discriminate].
Qed.

Lemma canonicalMIMEHeaderKey_fst (s : string) :
  fst (textproto.canonicalMIMEHeaderKey s) =
  if allValid s then textproto.canonicalize true s else s.
Proof.
  unfold textproto.canonicalMIMEHeaderKey.
  destruct (allValid s) eqn:Hv.
  - now rewrite (scanKey_allValid s Hv false).
  - pose proof (scanKey_not_allValid s Hv false) as Hn.
    destruct (textproto.scanKey false s) as [[|]|]; try reflexivity.
    now contradiction Hn.
Qed.

Lemma canonicalize_fixed (s : string) :
  forall u, allValid s = true -> needsCanon u s = false ->
            textproto.canonicalize u s = s.
Proof.
  induction s as [|c rest IH]; intros u Hv Hn; simpl in *; [reflexivity|].
  apply andb_true_iff in Hv as [Hc Hr]. rewrite Hc in Hn. simpl in Hn.
  destruct (u && bytes.isLower c); [discriminate|].
  destruct (negb u && bytes.isUpper c); [discriminate|].
  f_equal. now apply IH.
Qed.

(** The key is canonicalized when all its bytes are token bytes, and
    left as it is otherwise. *)
Lemma CanonicalMIMEHeaderKey_spec (s : string) :
  textproto.CanonicalMIMEHeaderKey s =
  if allValid s then textproto.canonicalize true s else s.
Proof.
  unfold textproto.CanonicalMIMEHeaderKey.
  rewrite quickCheck_needsCanon, canonicalMIMEHeaderKey_fst.
  destruct (needsCanon true s) eqn:Hn; [reflexivity|].
  destruct (allValid s) eqn:Hv; [|reflexivity].
  symmetry. now apply canonicalize_fixed.
Qed.

Lemma EqualFold_allValid (s t : string) :
  EqualFold s t = true -> allValid s = allValid t.
Proof.
  revert t; induction s as [|a s IH]; intros [|b t]; simpl; try discriminate; [reflexivity|].
  intros H. apply andb_true_iff in H as [Hab Hst].
  apply Ascii.eqb_eq in Hab.
  rewrite <- (valid_lower a), <- (valid_lower b), Hab. f_equal. now apply IH.
Qed.

Lemma EqualFold_canonicalize (s t : string) :
  EqualFold s t = true ->
  forall u, textproto.canonicalize u s = textproto.canonicalize u t.
Proof.
  revert t; induction s as [|a s IH]; intros [|b t]; simpl EqualFold; try discriminate;
    [reflexivity|].
  intros H u. apply andb_true_iff in H as [Hab Hst].
  apply Ascii.eqb_eq in Hab.
  rewrite (canonicalize_cons u a), (canonicalize_cons u b).
  rewrite <- (canonicalize_byte_lower u a), <- (canonicalize_byte_lower u b), Hab.
  f_equal. now apply IH.
Qed.

(** Two letter-casings of a name made of token bytes have the same
    canonical form. *)
Lemma EqualFold_canonical (s t : string) :
  EqualFold s t = true -> allValid t = true ->
  textproto.CanonicalMIMEHeaderKey s = textproto.CanonicalMIMEHeaderKey t.
Proof.
  intros H Hv. rewrite !CanonicalMIMEHeaderKey_spec.
  rewrite (EqualFold_allValid s t H), Hv. now apply EqualFold_canonicalize.
Qed.

(** Any letter-casing of one of the eight names has one of the eight
    keys of [hopHeaders] as its canonical form. *)
Lemma isHopName_canonical (k : string) :
  isHopName k = true -> textproto.CanonicalMIMEHeaderKey k ∈ hopHeaders.
Proof.
  unfold isHopName. rewrite existsb_exists. intros (n & Hin & Hf).
  assert (Hn : allValid n = true /\ textproto.CanonicalMIMEHeaderKey n ∈ hopHeaders).
  { simpl in Hin.
    repeat (destruct Hin as [<-|Hin];
            [split; [reflexivity | apply (bool_decide_unpack _); reflexivity]|]).
    destruct Hin. }
  destruct Hn as [Hv Hc]. now rewrite (EqualFold_canonical k n Hf Hv).
Qed.

(** * The header hygiene filter *)

Lemma hopHeaders_canonical (k : string) :
  k ∈ hopHeaders -> textproto.CanonicalMIMEHeaderKey k = k.
Proof.
  unfold hopHeaders. rewrite !elem_of_cons, elem_of_nil.
  intros H. repeat (destruct H as [->|H]; [reflexivity|]). destruct H.
Qed.

(** Deleting a list of keys, one [Del] at a time. *)
Lemma fold_Del_lookup (ks : list string) (h : MIMEHeader) (k : string) :
  fold_left header.Del ks h !! k =
  if bool_decide (k ∈ map textproto.CanonicalMIMEHeaderKey ks) then None else h !! k.
Proof.
  revert h; induction ks as [|a ks IH]; intros h.
  - reflexivity.
  - change (fold_left header.Del (a :: ks) h) with (fold_left header.Del ks (header.Del h a)).
    rewrite IH. change (map textproto.CanonicalMIMEHeaderKey (a :: ks))
      with (textproto.CanonicalMIMEHeaderKey a :: map textproto.CanonicalMIMEHeaderKey ks).
    unfold header.Del.
    rewrite (bool_decide_ext _ _ (elem_of_cons _ k _)).
    destruct (decide (k = textproto.CanonicalMIMEHeaderKey a)) as [->|Hne].
    + rewrite lookup_delete_eq, (bool_decide_eq_true_2 (_ \/ _)) by now left.
      now destruct (bool_decide _).
    + rewrite lookup_delete_ne by congruence.
      apply (f_equal (fun b : bool => if b then None else h !! k)).
      apply bool_decide_ext. tauto.
Qed.

(** The filter deletes exactly the eight keys of [hopHeaders]. *)
Lemma stripHopHeaders_lookup (h : MIMEHeader) (k : string) :
  stripHopHeaders h !! k = if bool_decide (k ∈ hopHeaders) then None else h !! k.
Proof. unfold stripHopHeaders. now rewrite fold_Del_lookup. Qed.

Lemma stripHopHeaders_idempotent (h : MIMEHeader) :
  stripHopHeaders (stripHopHeaders h) = stripHopHeaders h.
Proof.
  apply map_eq. intros k. rewrite !stripHopHeaders_lookup.
  now destruct (bool_decide (k ∈ hopHeaders)).
Qed.

(** Looked up through the accessors of [http.Header], which canonicalize
    the name they are given, none of the eight names has a value left,
    whatever the map held. *)
Lemma stripHopHeaders_Values (h : MIMEHeader) (k : string) :
  isHopName k = true ->
  header.Values (stripHopHeaders h) k = [] /\
  header.Get (stripHopHeaders h) k = EmptyString.
Proof.
  intros Hk. apply isHopName_canonical in Hk.
  unfold header.Values, header.Get. rewrite stripHopHeaders_lookup.
  now rewrite bool_decide_eq_true_2.
Qed.

Lemma isHopName_hopHeaders (k : string) : k ∈ hopHeaders -> isHopName k = true.
Proof.
  unfold hopHeaders. rewrite !elem_of_cons, elem_of_nil.
  intros H. repeat (destruct H as [->|H]; [reflexivity|]). destruct H.
Qed.

(** C3 as the specification states it fails on a header map that holds
    one of the names in a form that is not canonical: [Del] deletes the
    key [Connection], and the entry [connection] stays. *)
Lemma stripHopHeaders_keeps_noncanonical :
  isHopName "connection" = true /\
  stripHopHeaders {[ "connection" := ["close"] ]} !! "connection" = Some ["close"].
Proof. split; [reflexivity | vm_compute; reflexivity]. Qed.

(** C3 (amended): for every header collection whose names are in
    canonical form, after the filter none of the eight hop-by-hop names is
    present under any letter-casing, every other header keeps its values
    in their order, and the filter applied twice gives what it gives
    applied once. *)
Theorem stripHopHeaders_hygiene (h : MIMEHeader) :
  canonicalKeys h ->
  (forall k, isHopName k = true -> stripHopHeaders h !! k = None) /\
  (forall k, isHopName k = false -> stripHopHeaders h !! k = h !! k) /\
  stripHopHeaders (stripHopHeaders h) = stripHopHeaders h.
Proof.
  intros Hcanon. split; [|split].
  - intros k Hk. rewrite stripHopHeaders_lookup.
    destruct (bool_decide (k ∈ hopHeaders)) eqn:Hin; [reflexivity|].
    apply bool_decide_eq_false in Hin.
    destruct (h !! k) as [vs|] eqn:Hlk; [|reflexivity].
    exfalso. apply Hin. rewrite <- (Hcanon k vs Hlk).
    now apply isHopName_canonical.
  - intros k Hk. rewrite stripHopHeaders_lookup.
    destruct (bool_decide (k ∈ hopHeaders)) eqn:Hin; [|reflexivity].
    apply bool_decide_eq_true in Hin. apply isHopName_hopHeaders in Hin. congruence.
  - apply stripHopHeaders_idempotent.
Qed.

Lemma sampleHeader_canonical : canonicalKeys sampleHeader.
Proof. apply (bool_decide_unpack _). vm_compute. reflexivity. Defined.

Lemma stripHopHeaders_hygiene_witness :
  stripHopHeaders sampleHeader !! "Connection" = None /\
  stripHopHeaders sampleHeader !! "X-Request-Id" = Some ["7"; "8"].
Proof.
  destruct (stripHopHeaders_hygiene sampleHeader sampleHeader_canonical) as (Hgone & Hkept & _).
  split.
  - now apply Hgone.
  - rewrite Hkept; reflexivity.
Defined.

(** * The request rewrite *)

(** The header map the director leaves on the outbound request. *)
Lemma Director_Header (target : url.URL) (token : string) (req : Request.t) :
  Request.Header (httputil.Director (newMistProxy target token) req) =
  stripHopHeaders
    (header.Set_ (header.Set_ (Request.Header req) "Authorization" ("Token " +:+ token))
                 "Accept" "application/json").
Proof. reflexivity. Qed.

Lemma Director_Header_lookup (target : url.URL) (token : string) (req : Request.t)
    (k : string) :
  Request.Header (httputil.Director (newMistProxy target token) req) !! k =
  if bool_decide (k ∈ hopHeaders) then None
  else if bool_decide (k = "Accept") then Some ["application/json"]
  else if bool_decide (k = "Authorization") then Some ["Token " +:+ token]
  else Request.Header req !! k.
Proof.
  rewrite Director_Header, stripHopHeaders_lookup.
  destruct (bool_decide (k ∈ hopHeaders)); [reflexivity|].
  unfold header.Set_.
  change (textproto.CanonicalMIMEHeaderKey "Accept") with "Accept".
  change (textproto.CanonicalMIMEHeaderKey "Authorization") with "Authorization".
  case_bool_decide as Ha; [subst k; apply lookup_insert_eq|].
  rewrite lookup_insert_ne by congruence.
  case_bool_decide as Hb; [subst k; apply lookup_insert_eq|].
  now rewrite lookup_insert_ne by congruence.
Qed.

(** C1: after the request rewrite the Authorization header of the
    outbound request is exactly [Token <credential>], whatever the
    inbound request carried: the key holds that one value, and the header
    accessors return it under any letter-casing of the name.  When the
    inbound header names are in canonical form, as the server delivers
    them, the map holds no other entry for the name. *)
Theorem Director_Authorization (target : url.URL) (token : string) (req : Request.t) :
  let out := httputil.Director (newMistProxy target token) req in
  Request.Header out !! "Authorization" = Some ["Token " +:+ token] /\
  (forall name, EqualFold name "Authorization" = true ->
     header.Values (Request.Header out) name = ["Token " +:+ token] /\
     header.Get (Request.Header out) name = "Token " +:+ token) /\
  (canonicalKeys (Request.Header req) ->
   forall name, EqualFold name "Authorization" = true -> name <> "Authorization" ->
     Request.Header out !! name = None).
Proof.
  intros out.
  assert (Hk : Request.Header out !! "Authorization" = Some ["Token " +:+ token]).
  { unfold out. rewrite Director_Header_lookup. reflexivity. }
  assert (Hc : forall name, EqualFold name "Authorization" = true ->
                 textproto.CanonicalMIMEHeaderKey name = "Authorization").
  { intros name Hname.
    now rewrite (EqualFold_canonical name "Authorization" Hname eq_refl). }
  split; [exact Hk|]. split.
  - intros name Hname. unfold header.Values, header.Get. now rewrite (Hc name Hname), Hk.
  - intros Hcanon name Hname Hne. unfold out. rewrite Director_Header_lookup.
    destruct (bool_decide (name ∈ hopHeaders)); [reflexivity|].
    case_bool_decide as Hacc; [subst name; discriminate Hname|].
    case_bool_decide as Hauth; [contradiction|].
    destruct (Request.Header req !! name) as [vs|] eqn:Hlk; [|reflexivity].
    exfalso. apply Hne. rewrite <- (Hcanon name vs Hlk). now apply Hc.
Qed.

Lemma Director_Authorization_witness :
  Request.Header (httputil.Director (newMistProxy mistTarget "secret") sitesRequest)
    !! "Authorization" = Some ["Token secret"] /\
  Request.Header (httputil.Director (newMistProxy mistTarget "secret") sitesRequest)
    !! "authorization" = None.
Proof.
  destruct (Director_Authorization mistTarget "secret" sitesRequest) as (Hk & _ & Hother).
  split; [exact Hk|].
  apply Hother; [apply (bool_decide_unpack _); vm_compute|..]; reflexivity || discriminate.
Defined.

Lemma HasPrefix_slash (s : string) :
  gostring.HasPrefix s "/" = true -> exists s', s = String "/" s'.
Proof.
  unfold gostring.HasPrefix. destruct s as [|c s']; simpl; [discriminate|].
  destruct (Ascii.eqb c "/") eqn:Hc; [|discriminate].
  apply Ascii.eqb_eq in Hc as ->. eauto.
Qed.

Lemma unescape_empty (s : string) :
  url.unescape s = Some EmptyString -> s = EmptyString.
Proof.
  destruct s as [|c s]; [reflexivity|]. intros H. exfalso. revert H. simpl.
  destruct (Ascii.eqb c "%") eqn:Hc.
  - apply Ascii.eqb_eq in Hc as ->.
    destruct s as [|h1 [|h2 rest]]; try discriminate.
    destruct (url.ishex h1 && url.ishex h2); [|discriminate].
    destruct (url.unescape rest); discriminate.
  - assert (Hgen : (t ← url.unescape s; Some (String c t)) <> Some EmptyString).
    { destruct (url.unescape s); discriminate. }
    each_byte c; try discriminate; exact Hgen.
Qed.

Lemma EscapedPath_no_path (u : url.URL) :
  url.Path u = EmptyString -> url.EscapedPath u = EmptyString.
Proof.
  intros Hp. unfold url.EscapedPath. rewrite Hp.
  destruct (negb (String.eqb (url.RawPath u) EmptyString) && url.validEncoded (url.RawPath u))
    eqn:Hc; [|reflexivity].
  destruct (url.unescape (url.RawPath u)) as [p|] eqn:Hu; [|reflexivity].
  destruct (String.eqb p EmptyString) eqn:Hp'; [|reflexivity].
  apply String.eqb_eq in Hp' as ->. apply unescape_empty in Hu.
  rewrite Hu in Hc. discriminate.
Qed.

Lemma EscapedPath_root (u : url.URL) :
  url.Path u = "/" -> url.RawPath u = EmptyString -> url.EscapedPath u = "/".
Proof. intros Hp Hr. unfold url.EscapedPath. now rewrite Hp, Hr. Qed.

(** The encoded path is the kept [RawPath], or the default encoding of
    [Path]. *)
Lemma EscapedPath_cases (u : url.URL) :
  (url.RawPath u <> EmptyString /\ url.validEncoded (url.RawPath u) = true /\
   url.unescape (url.RawPath u) = Some (url.Path u) /\
   url.EscapedPath u = url.RawPath u) \/
  url.EscapedPath u = (if String.eqb (url.Path u) "*" then "*" else url.escape (url.Path u)).
Proof.
  unfold url.EscapedPath.
  destruct (String.eqb (url.RawPath u) EmptyString) eqn:He; simpl; [now right|].
  destruct (url.validEncoded (url.RawPath u)) eqn:Hv; simpl; [|now right].
  destruct (url.unescape (url.RawPath u)) as [p|] eqn:Hu; [|now right].
  destruct (String.eqb p (url.Path u)) eqn:Hp; [|now right].
  apply String.eqb_eq in Hp as ->. apply String.eqb_neq in He. left. tauto.
Qed.

Lemma EscapedPath_originForm (u : url.URL) :
  originForm u -> gostring.HasPrefix (url.EscapedPath u) "/" = true.
Proof.
  intros [Hp Hr]. destruct (EscapedPath_cases u) as [(Hne & _ & _ & ->) | ->].
  - destruct Hr as [Hr|Hr]; [contradiction | exact Hr].
  - apply HasPrefix_slash in Hp as [p ->]. reflexivity.
Qed.

(** [EscapedPath] reads [Path] and [RawPath] only, and a URL that keeps
    the encoded path of another as its [RawPath] encodes to it. *)
Lemma EscapedPath_kept (u v : url.URL) :
  url.Path v = url.Path u ->
  (url.RawPath v = url.RawPath u \/ url.RawPath v = url.EscapedPath u) ->
  url.EscapedPath v = url.EscapedPath u.
Proof.
  intros Hp [Hr|Hr].
  - unfold url.EscapedPath. now rewrite Hp, Hr.
  - destruct (EscapedPath_cases u) as [(Hne & Hv & Hu & He)|He].
    + unfold url.EscapedPath at 1. rewrite Hr, Hp, He, Hv, Hu.
      apply String.eqb_neq in Hne. rewrite Hne, String.eqb_refl. reflexivity.
    + destruct (EscapedPath_cases v) as [(_ & _ & _ & ->) | ->]; [exact Hr|].
      now rewrite Hp, He.
Qed.

Lemma joinURLPath_bareOrigin (target u : url.URL) :
  bareOrigin target -> originForm u ->
  fst (httputil.joinURLPath target u) = url.Path u /\
  (snd (httputil.joinURLPath target u) = url.RawPath u \/
   snd (httputil.joinURLPath target u) = url.EscapedPath u).
Proof.
  intros [Hbase _] Horigin.
  pose proof (EscapedPath_originForm u Horigin) as Hb.
  destruct Horigin as [Hp _].
  apply HasPrefix_slash in Hp as [p Hp].
  apply HasPrefix_slash in Hb as [e He].
  unfold httputil.joinURLPath.
  destruct (String.eqb (url.RawPath target) EmptyString &&
            String.eqb (url.RawPath u) EmptyString) eqn:Hraw.
  - apply andb_true_iff in Hraw as [_ Hru]. apply String.eqb_eq in Hru.
    rewrite Hru, Hp. destruct Hbase as [->|[-> _]]; split; auto.
  - destruct Hbase as [Ht|[Ht Htr]].
    + rewrite (EscapedPath_no_path target Ht), Ht, He, Hp. split; auto.
    + rewrite (EscapedPath_root target Ht Htr), Ht, He, Hp. split; auto.
Qed.

(** What the director does to the URL and the host, for any target. *)
Lemma Director_URL (target : url.URL) (token : string) (req : Request.t) :
  let out := httputil.Director (newMistProxy target token) req in
  url.Scheme (Request.URL out) = url.Scheme target /\
  url.Host (Request.URL out) = url.Host target /\
  Request.Host out = url.Host target /\
  url.Path (Request.URL out) = fst (httputil.joinURLPath target (Request.URL req)) /\
  url.RawPath (Request.URL out) = snd (httputil.joinURLPath target (Request.URL req)).
Proof. repeat split. Qed.

(** With a base URL that has a path, the outbound path is the base path
    joined to the inbound path (both without a separate encoded form). *)
Lemma Director_joins_paths (target : url.URL) (token : string) (req : Request.t) :
  url.RawPath target = EmptyString -> url.RawPath (Request.URL req) = EmptyString ->
  url.Path (Request.URL (httputil.Director (newMistProxy target token) req)) =
  httputil.singleJoiningSlash (url.Path target) (url.Path (Request.URL req)).
Proof.
  intros Ht Hr. simpl. unfold httputil.joinURLPath. now rewrite Ht, Hr.
Qed.

(** Every header but Authorization, Accept and the eight hop-by-hop
    keys passes through the director unchanged. *)
Lemma Director_Header_frame (target : url.URL) (token : string) (req : Request.t)
    (k : string) :
  k ∉ "Authorization" :: "Accept" :: hopHeaders ->
  Request.Header (httputil.Director (newMistProxy target token) req) !! k =
  Request.Header req !! k.
Proof.
  intros Hk. rewrite Director_Header_lookup.
  assert (Hauth : k <> "Authorization")
    by (intros ->; apply Hk, list_elem_of_here).
  assert (Hacc : k <> "Accept")
    by (intros ->; apply Hk, list_elem_of_further, list_elem_of_here).
  assert (Hhop : k ∉ hopHeaders)
    by (intros Hin; apply Hk; now do 2 apply list_elem_of_further).
  rewrite (bool_decide_eq_false_2 _ Hhop), (bool_decide_eq_false_2 _ Hacc).
  now rewrite (bool_decide_eq_false_2 _ Hauth).
Qed.

(** C2 as the specification states it fails when the upstream base URL
    has a path: the request for [/sites] leaves for [/api/v1/sites]. *)
Lemma Director_prefixes_base_path :
  url.Path (Request.URL sitesRequest) = "/sites" /\
  url.Path (Request.URL (httputil.Director (newMistProxy mistTarget "secret") sitesRequest))
  = "/api/v1/sites".
Proof. split; reflexivity. Qed.

(** C2 (amended): when the upstream base URL names an origin only (no
    path beyond the root, no query) and the inbound request is in origin
    form, the outbound request has the method, path (decoded and as
    encoded on the wire), query and body of the inbound request; the URL
    takes the scheme and host of the upstream, the Host becomes the
    upstream's, and every header but Authorization, Accept and the
    hop-by-hop headers is unchanged. *)
Theorem Director_preserves_request (target : url.URL) (token : string) (req : Request.t) :
  bareOrigin target -> originForm (Request.URL req) ->
  let out := httputil.Director (newMistProxy target token) req in
  Request.Method out = Request.Method req /\
  url.Path (Request.URL out) = url.Path (Request.URL req) /\
  url.EscapedPath (Request.URL out) = url.EscapedPath (Request.URL req) /\
  url.RawQuery (Request.URL out) = url.RawQuery (Request.URL req) /\
  Request.Body out = Request.Body req /\
  url.Scheme (Request.URL out) = url.Scheme target /\
  url.Host (Request.URL out) = url.Host target /\
  Request.Host out = url.Host target /\
  forall k, k ∉ "Authorization" :: "Accept" :: hopHeaders ->
            Request.Header out !! k = Request.Header req !! k.
Proof.
  intros Hbare Horigin out.
  destruct (joinURLPath_bareOrigin target (Request.URL req) Hbare Horigin) as [Hpath Hraw].
  assert (HP : url.Path (Request.URL out) = url.Path (Request.URL req)) by exact Hpath.
  repeat split; try reflexivity.
  - exact HP.
  - apply EscapedPath_kept; [exact HP | exact Hraw].
  - destruct Hbare as [_ Hq]. unfold out. simpl. now rewrite Hq.
  - intros k Hk. now apply Director_Header_frame.
Qed.

Lemma Director_preserves_request_witness :
  let out := httputil.Director (newMistProxy originTarget "secret") sitesRequest in
  url.Path (Request.URL out) = "/sites" /\
  url.RawQuery (Request.URL out) = "limit=10" /\
  Request.Header out !! "X-Request-Id" = Some ["7"].
Proof.
  assert (Hbare : bareOrigin originTarget) by (split; [left|]; reflexivity).
  assert (Horigin : originForm (Request.URL sitesRequest)) by (split; [|left]; reflexivity).
  destruct (Director_preserves_request originTarget "secret" sitesRequest Hbare Horigin)
    as (_ & Hp & _ & Hq & _ & _ & _ & _ & Hh).
  split; [exact Hp | split; [exact Hq|]].
  rewrite Hh; [reflexivity|]. unfold hopHeaders.
  rewrite !not_elem_of_cons. repeat split; try discriminate. apply not_elem_of_nil.
Defined.

(** * Go strings *)

Lemma len_nonneg (s : string) : 0 <= gostring.len s.
Proof. unfold gostring.len. lia. Qed.

Lemma len_cons (c : ascii) (s : string) :
  gostring.len (String c s) = gostring.len s + 1.
Proof. unfold gostring.len. simpl. lia. Qed.

Lemma append_nil_l (b : string) : EmptyString +:+ b = b.
Proof. reflexivity. Qed.

Lemma append_cons (c : ascii) (a b : string) : String c a +:+ b = String c (a +:+ b).
Proof. reflexivity. Qed.

Lemma len_app (a b : string) :
  gostring.len (a +:+ b) = gostring.len a + gostring.len b.
Proof.
  induction a as [|c a IH].
  - rewrite append_nil_l. unfold gostring.len. simpl. lia.
  - rewrite append_cons, !len_cons, IH. lia.
Qed.

Lemma take_drop (n : nat) (s : string) :
  gostring.take n s +:+ gostring.drop n s = s.
Proof.
  revert s; induction n as [|n IH]; intros [|c s]; simpl; try reflexivity.
  now rewrite append_cons, IH.
Qed.

Lemma drop_drop (n m : nat) (s : string) :
  gostring.drop n (gostring.drop m s) = gostring.drop (m + n) s.
Proof.
  revert s; induction m as [|m IH]; intros s; simpl; [reflexivity|].
  destruct s as [|c s]; [now destruct n | apply IH].
Qed.

Lemma get_drop (n : nat) (s : string) (c : ascii) :
  String.get n s = Some c -> gostring.drop n s = String c (gostring.drop (S n) s).
Proof.
  revert s; induction n as [|n IH]; intros [|d s]; simpl; try discriminate.
  - now intros [= ->].
  - apply IH.
Qed.

Lemma get_in_range (n : nat) (s : string) :
  (n < String.length s)%nat -> exists c, String.get n s = Some c.
Proof.
  revert s; induction n as [|n IH]; intros [|d s]; simpl; try lia; [eauto|].
  intros H. apply IH. lia.
Qed.

Lemma take_app_exact (a b : string) : gostring.take (String.length a) (a +:+ b) = a.
Proof.
  induction a as [|c a IH]; [now destruct b|].
  rewrite append_cons. simpl. now rewrite IH.
Qed.

Lemma drop_app_exact (a b : string) : gostring.drop (String.length a) (a +:+ b) = b.
Proof. induction a as [|c a IH]; [reflexivity | exact IH]. Qed.

Lemma byteAt_Some (s : string) (i : Z) :
  0 <= i < gostring.len s -> exists c, gostring.byteAt s i = Some c.
Proof.
  intros [H0 H1]. unfold gostring.byteAt.
  replace ((0 <=? i) && (i <? gostring.len s)) with true
    by (symmetry; apply andb_true_iff; split; [apply Z.leb_le | apply Z.ltb_lt]; lia).
  apply get_in_range. unfold gostring.len in H1. lia.
Qed.

Lemma byteAt_get (s : string) (i : Z) (c : ascii) :
  gostring.byteAt s i = Some c -> 0 <= i /\ String.get (Z.to_nat i) s = Some c.
Proof.
  unfold gostring.byteAt. destruct (0 <=? i) eqn:H0; simpl; [|discriminate].
  destruct (i <? gostring.len s); [|discriminate].
  apply Z.leb_le in H0. auto.
Qed.

Lemma slice_Some (s : string) (lo hi : Z) :
  0 <= lo <= hi -> hi <= gostring.len s ->
  gostring.slice s lo hi =
  Some (gostring.take (Z.to_nat (hi - lo)) (gostring.drop (Z.to_nat lo) s)).
Proof.
  intros [H0 H1] H2. unfold gostring.slice.
  replace ((0 <=? lo) && (lo <=? hi) && (hi <=? gostring.len s)) with true; [reflexivity|].
  symmetry. rewrite !andb_true_iff, !Z.leb_le. lia.
Qed.

Lemma length_drop (n : nat) (s : string) :
  String.length (gostring.drop n s) = (String.length s - n)%nat.
Proof.
  revert s; induction n as [|n IH]; intros [|c s]; simpl; try lia. apply IH.
Qed.

Lemma take_all (n : nat) (s : string) :
  (String.length s <= n)%nat -> gostring.take n s = s.
Proof.
  revert s; induction n as [|n IH]; intros [|c s]; simpl; try reflexivity; try lia.
  intros H. rewrite IH; [reflexivity | lia].
Qed.

Lemma sliceFrom_Some (s : string) (lo : Z) :
  0 <= lo <= gostring.len s ->
  gostring.sliceFrom s lo = Some (gostring.drop (Z.to_nat lo) s).
Proof.
  intros H. unfold gostring.sliceFrom. rewrite slice_Some by lia.
  f_equal. apply take_all. rewrite length_drop. unfold gostring.len in *. lia.
Qed.

(** * [IndexByte] and [LastIndexByte] *)

Lemma IndexByte_range (s : string) (c : ascii) :
  -1 <= gostring.IndexByte s c < gostring.len s.
Proof.
  induction s as [|a s IH]; simpl.
  - unfold gostring.len. simpl. lia.
  - rewrite len_cons. destruct (bytes.eqb a c); [pose proof (len_nonneg s); lia|].
    destruct (gostring.IndexByte s c <? 0) eqn:Hneg; [pose proof (len_nonneg s); lia|].
    apply Z.ltb_ge in Hneg. lia.
Qed.

Lemma LastIndexByte_range (s : string) (c : ascii) :
  -1 <= gostring.LastIndexByte s c < gostring.len s.
Proof.
  induction s as [|a s IH]; simpl.
  - unfold gostring.len. simpl. lia.
  - rewrite len_cons. destruct (0 <=? gostring.LastIndexByte s c) eqn:Hpos.
    + apply Z.leb_le in Hpos. lia.
    + pose proof (len_nonneg s). destruct (bytes.eqb a c); lia.
Qed.

Lemma IndexByte_get (s : string) (c : ascii) :
  0 <= gostring.IndexByte s c ->
  String.get (Z.to_nat (gostring.IndexByte s c)) s = Some c.
Proof.
  induction s as [|a s IH]; simpl; [lia|].
  destruct (bytes.eqb a c) eqn:Hac.
  - apply Ascii.eqb_eq in Hac as ->. reflexivity.
  - destruct (gostring.IndexByte s c <? 0) eqn:Hneg; [lia|].
    apply Z.ltb_ge in Hneg. intros _.
    replace (Z.to_nat (gostring.IndexByte s c + 1))
      with (S (Z.to_nat (gostring.IndexByte s c))) by lia.
    simpl. now apply IH.
Qed.

Lemma LastIndexByte_get (s : string) (c : ascii) :
  0 <= gostring.LastIndexByte s c ->
  String.get (Z.to_nat (gostring.LastIndexByte s c)) s = Some c.
Proof.
  induction s as [|a s IH]; simpl; [lia|].
  destruct (0 <=? gostring.LastIndexByte s c) eqn:Hpos.
  - apply Z.leb_le in Hpos. intros _.
    replace (Z.to_nat (gostring.LastIndexByte s c + 1))
      with (S (Z.to_nat (gostring.LastIndexByte s c))) by lia.
    simpl. now apply IH.
  - destruct (bytes.eqb a c) eqn:Hac; [|lia].
    apply Ascii.eqb_eq in Hac as ->. reflexivity.
Qed.

(** The first byte is not [c]: [c] is found later, or not at all. *)
Lemma IndexByte_after_first (a c : ascii) (s : string) :
  bytes.eqb a c = false -> gostring.IndexByte (String a s) c <> 0.
Proof.
  intros H. simpl. rewrite H.
  destruct (gostring.IndexByte s c <? 0) eqn:Hneg; [lia|].
  apply Z.ltb_ge in Hneg. lia.
Qed.

Lemma LastIndexByte_cons (a c : ascii) (s : string) :
  gostring.LastIndexByte (String a s) c =
  if 0 <=? gostring.LastIndexByte s c then gostring.LastIndexByte s c + 1
  else if bytes.eqb a c then 0 else -1.
Proof. reflexivity. Qed.

Lemma IndexByte_cons (a c : ascii) (s : string) :
  gostring.IndexByte (String a s) c =
  if bytes.eqb a c then 0
  else if gostring.IndexByte s c <? 0 then -1 else gostring.IndexByte s c + 1.
Proof. reflexivity. Qed.

Lemma IndexByte_app (a b : string) (c : ascii) :
  gostring.IndexByte (a +:+ b) c =
  if 0 <=? gostring.IndexByte a c then gostring.IndexByte a c
  else if 0 <=? gostring.IndexByte b c then gostring.len a + gostring.IndexByte b c
  else -1.
Proof.
  induction a as [|x a IH].
  - rewrite append_nil_l. simpl. unfold gostring.len. simpl.
    pose proof (IndexByte_range b c).
    destruct (0 <=? gostring.IndexByte b c) eqn:H0; [reflexivity|].
    apply Z.leb_gt in H0. lia.
  - rewrite append_cons, len_cons. simpl. destruct (bytes.eqb x c); [reflexivity|].
    rewrite IH. pose proof (IndexByte_range a c). pose proof (len_nonneg a).
    pose proof (IndexByte_range b c).
    destruct (0 <=? gostring.IndexByte a c) eqn:Ha.
    + apply Z.leb_le in Ha.
      replace (gostring.IndexByte a c <? 0) with false by (symmetry; apply Z.ltb_ge; lia).
      replace (0 <=? gostring.IndexByte a c + 1) with true by (symmetry; apply Z.leb_le; lia).
      reflexivity.
    + apply Z.leb_gt in Ha.
      replace (gostring.IndexByte a c <? 0) with true by (symmetry; apply Z.ltb_lt; lia).
      simpl. destruct (0 <=? gostring.IndexByte b c) eqn:Hb; [|reflexivity].
      apply Z.leb_le in Hb.
      replace (gostring.len a + gostring.IndexByte b c <? 0) with false
        by (symmetry; apply Z.ltb_ge; lia).
      lia.
Qed.

Lemma LastIndexByte_app (a b : string) (c : ascii) :
  gostring.LastIndexByte (a +:+ b) c =
  if 0 <=? gostring.LastIndexByte b c then gostring.len a + gostring.LastIndexByte b c
  else gostring.LastIndexByte a c.
Proof.
  induction a as [|x a IH].
  - rewrite append_nil_l. simpl. unfold gostring.len. simpl.
    pose proof (LastIndexByte_range b c).
    destruct (0 <=? gostring.LastIndexByte b c) eqn:H0; [reflexivity|].
    apply Z.leb_gt in H0. lia.
  - rewrite append_cons, len_cons. simpl. rewrite IH.
    pose proof (len_nonneg a).
    destruct (0 <=? gostring.LastIndexByte b c) eqn:Hb.
    + apply Z.leb_le in Hb.
      replace (0 <=? gostring.len a + gostring.LastIndexByte b c) with true
        by (symmetry; apply Z.leb_le; lia).
      lia.
    + reflexivity.
Qed.

(** The tail of [SplitHostPort] answers, with the port or an error. *)
Lemma splitTail_total (s host : string) (i j k : Z) :
  0 <= j <= gostring.len s -> 0 <= k <= gostring.len s -> 0 <= i < gostring.len s ->
  net.splitTail s host i j k = Some (host, gostring.drop (Z.to_nat (i + 1)) s, None) \/
  exists why, net.splitTail s host i j k = Some (net.addrErr s why).
Proof.
  intros Hj Hk Hi. unfold net.splitTail.
  rewrite (sliceFrom_Some s j Hj). simpl.
  destruct (0 <=? gostring.IndexByte _ "["); [right; eauto|].
  rewrite (sliceFrom_Some s k Hk). simpl.
  destruct (0 <=? gostring.IndexByte _ "]"); [right; eauto|].
  rewrite (sliceFrom_Some s (i + 1)) by lia. simpl. now left.
Qed.

Lemma IndexByte_not_first (s : string) (a c : ascii) :
  gostring.byteAt s 0 = Some a -> bytes.eqb a c = false -> gostring.IndexByte s c <> 0.
Proof.
  destruct s as [|x s']; [discriminate|]. intros [= ->]. apply IndexByte_after_first.
Qed.

Lemma take_first (s : string) (a : ascii) :
  gostring.byteAt s 0 = Some a -> s = String a (gostring.drop 1 s).
Proof. destruct s as [|x s']; [discriminate|]. now intros [= ->]. Qed.

(** [SplitHostPort] never indexes or slices out of range; when it
    succeeds the address is [host:port] or [[host]:port] for the host and
    port it returns, and when it fails it returns the error for the
    address. *)
Lemma SplitHostPort_total (s : string) :
  (exists host port,
      net.SplitHostPort s = Some (host, port, None) /\
      (s = host +:+ ":" +:+ port \/ s = "[" +:+ host +:+ "]:" +:+ port)) \/
  (exists why, net.SplitHostPort s = Some (net.addrErr s why)).
Proof.
  unfold net.SplitHostPort.
  pose proof (LastIndexByte_range s ":") as Hi.
  set (i := gostring.LastIndexByte s ":") in *.
  destruct (i <? 0) eqn:Hneg; [right; eexists; reflexivity|].
  apply Z.ltb_ge in Hneg.
  pose proof (LastIndexByte_get s ":" Hneg) as Hcolon. fold i in Hcolon.
  apply get_drop in Hcolon.
  destruct (byteAt_Some s 0) as [c0 H0]; [lia|].
  rewrite H0. cbn [mbind option_bind].
  destruct (bytes.eqb c0 "[") eqn:Hc0.
  - apply Ascii.eqb_eq in Hc0. subst c0.
    pose proof (IndexByte_range s "]") as He.
    set (e := gostring.IndexByte s "]") in *.
    destruct (e <? 0) eqn:Heneg; [right; eexists; reflexivity|].
    apply Z.ltb_ge in Heneg.
    destruct (e + 1 =? gostring.len s) eqn:Hlen; [right; eexists; reflexivity|].
    apply Z.eqb_neq in Hlen.
    destruct (e + 1 =? i) eqn:Hei.
    + apply Z.eqb_eq in Hei.
      assert (He1 : 1 <= e).
      { pose proof (IndexByte_not_first s "[" "]" H0 eq_refl). fold e in H. lia. }
      rewrite slice_Some by lia. cbn [mbind option_bind].
      destruct (splitTail_total s
                  (gostring.take (Z.to_nat (e - 1)) (gostring.drop (Z.to_nat 1) s))
                  i 1 (e + 1)) as [Hok|Herr]; try lia; [|now right].
      left. eexists _, _. split; [exact Hok|]. right.
      pose proof (IndexByte_get s "]" Heneg) as Hclose. fold e in Hclose.
      apply get_drop in Hclose.
      replace (Z.to_nat (i + 1)) with (S (Z.to_nat i)) by lia.
      rewrite !append_cons, !append_nil_l, <- Hcolon.
      replace (Z.to_nat i) with (S (Z.to_nat e)) by lia.
      rewrite <- Hclose.
      replace (Z.to_nat e) with (1 + Z.to_nat (e - 1))%nat by lia.
      rewrite <- drop_drop.
      change (Z.to_nat 1) with 1%nat.
      rewrite take_drop.
      now apply take_first.
    + destruct (byteAt_Some s (e + 1)) as [c Hc]; [lia|].
      rewrite Hc. cbn [mbind option_bind]. right. destruct (bytes.eqb c ":"); eexists; reflexivity.
  - rewrite slice_Some by lia. cbn [mbind option_bind].
    destruct (0 <=? gostring.IndexByte _ ":"); [right; eexists; reflexivity|].
    destruct (splitTail_total s
                (gostring.take (Z.to_nat (i - 0)) (gostring.drop (Z.to_nat 0) s))
                i 0 0) as [Hok|Herr]; try lia; [|now right].
    left. eexists _, _. split; [exact Hok|]. left.
    replace (Z.to_nat (i + 1)) with (S (Z.to_nat i)) by lia.
    rewrite !append_cons, !append_nil_l, <- Hcolon. rewrite Z.sub_0_r.
    change (gostring.drop (Z.to_nat 0) s) with s.
    now rewrite take_drop.
Qed.

Lemma lacks_IndexByte (s : string) (c : ascii) :
  lacks s c = true -> (0 <=? gostring.IndexByte s c) = false.
Proof. unfold lacks. rewrite Z.ltb_lt, Z.leb_gt. auto. Qed.

Lemma lacks_LastIndexByte (s : string) (c : ascii) :
  lacks s c = true -> (0 <=? gostring.LastIndexByte s c) = false.
Proof.
  unfold lacks. rewrite Z.ltb_lt, Z.leb_gt.
  induction s as [|a s IH]; simpl; [lia|].
  destruct (bytes.eqb a c); [lia|].
  destruct (gostring.IndexByte s c <? 0) eqn:Hneg.
  - apply Z.ltb_lt in Hneg. intros _. specialize (IH Hneg).
    replace (0 <=? gostring.LastIndexByte s c) with false
      by (symmetry; apply Z.leb_gt; exact IH).
    lia.
  - apply Z.ltb_ge in Hneg. lia.
Qed.

Lemma lacks_cons (a c : ascii) (s : string) :
  lacks (String a s) c = true -> bytes.eqb a c = false /\ lacks s c = true.
Proof.
  unfold lacks. simpl. destruct (bytes.eqb a c); [discriminate|].
  destruct (gostring.IndexByte s c <? 0) eqn:Hneg; [auto|].
  apply Z.ltb_ge in Hneg. rewrite Z.ltb_lt. lia.
Qed.

Lemma lacks_app (a b : string) (c : ascii) :
  lacks a c = true -> lacks b c = true -> lacks (a +:+ b) c = true.
Proof.
  intros Ha Hb. unfold lacks. rewrite IndexByte_app.
  now rewrite (lacks_IndexByte a c Ha), (lacks_IndexByte b c Hb).
Qed.

Lemma lacks_cons_intro (a c : ascii) (s : string) :
  bytes.eqb a c = false -> lacks s c = true -> lacks (String a s) c = true.
Proof. unfold lacks. simpl. intros -> ->. reflexivity. Qed.

Lemma splitTail_ok (s host : string) (i j k : Z) :
  0 <= j <= gostring.len s -> 0 <= k <= gostring.len s -> 0 <= i < gostring.len s ->
  lacks (gostring.drop (Z.to_nat j) s) "[" = true ->
  lacks (gostring.drop (Z.to_nat k) s) "]" = true ->
  net.splitTail s host i j k = Some (host, gostring.drop (Z.to_nat (i + 1)) s, None).
Proof.
  intros Hj Hk Hi Hlj Hlk. unfold net.splitTail.
  rewrite (sliceFrom_Some s j Hj). cbn [mbind option_bind]. rewrite (lacks_IndexByte _ _ Hlj).
  rewrite (sliceFrom_Some s k Hk). cbn [mbind option_bind]. rewrite (lacks_IndexByte _ _ Hlk).
  rewrite (sliceFrom_Some s (i + 1)) by lia. reflexivity.
Qed.

(** An address [host:port] with no colon or bracket in host and port
    splits into that host and port. *)
Lemma SplitHostPort_host_port (host port : string) :
  lacks host ":" = true -> lacks host "[" = true -> lacks host "]" = true ->
  lacks port ":" = true -> lacks port "[" = true -> lacks port "]" = true ->
  net.SplitHostPort (host +:+ ":" +:+ port) = Some (host, port, None).
Proof.
  intros Hh1 Hh2 Hh3 Hp1 Hp2 Hp3.
  set (s := host +:+ ":" +:+ port).
  assert (Hlen : gostring.len s = gostring.len host + 1 + gostring.len port).
  { unfold s. rewrite len_app, append_cons, append_nil_l, len_cons. lia. }
  pose proof (len_nonneg host) as Hlh. pose proof (len_nonneg port) as Hlp.
  assert (Hi : gostring.LastIndexByte s ":" = gostring.len host).
  { unfold s. rewrite LastIndexByte_app, append_cons, append_nil_l. simpl.
    rewrite (lacks_LastIndexByte port ":" Hp1). simpl. lia. }
  assert (Hc0 : exists c0, gostring.byteAt s 0 = Some c0 /\ bytes.eqb c0 "[" = false).
  { unfold s. destruct host as [|x host'].
    - exists ":"%char. split; reflexivity.
    - exists x. split; [reflexivity|]. now apply lacks_cons in Hh2. }
  destruct Hc0 as (c0 & H0 & Hne).
  unfold net.SplitHostPort. rewrite Hi.
  replace (gostring.len host <? 0) with false by (symmetry; apply Z.ltb_ge; lia).
  rewrite H0. cbn [mbind option_bind]. rewrite Hne.
  rewrite slice_Some by lia. cbn [mbind option_bind].
  replace (Z.to_nat (gostring.len host - 0)) with (String.length host)
    by (unfold gostring.len; lia).
  change (gostring.drop (Z.to_nat 0) s) with s.
  unfold s at 1. rewrite take_app_exact, (lacks_IndexByte host ":" Hh1).
  rewrite splitTail_ok; try lia.
  - replace (Z.to_nat (gostring.len host + 1)) with (String.length host + 1)%nat
      by (unfold gostring.len; lia).
    unfold s. rewrite <- drop_drop, drop_app_exact, ?take_app_exact. reflexivity.
  - apply lacks_app; [exact Hh2|]. rewrite append_cons, append_nil_l.
    now apply lacks_cons_intro.
  - apply lacks_app; [exact Hh3|]. rewrite append_cons, append_nil_l.
    now apply lacks_cons_intro.
Qed.

(** An address [[host]:port] with no bracket in the host and no colon
    or bracket in the port splits into that host and port: the host may
    hold colons, as an IPv6 literal does. *)
Lemma SplitHostPort_bracketed (host port : string) :
  lacks host "[" = true -> lacks host "]" = true ->
  lacks port ":" = true -> lacks port "[" = true -> lacks port "]" = true ->
  net.SplitHostPort ("[" +:+ host +:+ "]:" +:+ port) = Some (host, port, None).
Proof.
  intros Hh2 Hh3 Hp1 Hp2 Hp3.
  assert (Hs : "[" +:+ host +:+ "]:" +:+ port
               = String "[" (host +:+ String "]" (String ":" port))) by reflexivity.
  rewrite Hs. clear Hs.
  remember (String "[" (host +:+ String "]" (String ":" port))) as s eqn:Es.
  pose proof (len_nonneg host) as Hlh. pose proof (len_nonneg port) as Hlp.
  assert (Hlen : gostring.len s = gostring.len host + 3 + gostring.len port).
  { rewrite Es, len_cons, len_app, !len_cons. lia. }
  assert (Hi : gostring.LastIndexByte s ":" = gostring.len host + 2).
  { rewrite Es.
    change (String "[" (host +:+ String "]" (String ":" port)))
      with (("[" +:+ host) +:+ ("]" +:+ String ":" port)).
    rewrite LastIndexByte_app, append_cons, append_nil_l, !LastIndexByte_cons.
    rewrite (lacks_LastIndexByte port ":" Hp1).
    change (bytes.eqb ":" ":") with true. cbv iota.
    change (0 <=? 0) with true. cbv iota. change (0 <=? 0 + 1) with true. cbv iota.
    rewrite len_app. unfold gostring.len at 1. simpl. lia. }
  assert (He : gostring.IndexByte s "]" = gostring.len host + 1).
  { rewrite Es, IndexByte_cons. change (bytes.eqb "[" "]") with false. cbv iota.
    rewrite IndexByte_app, (lacks_IndexByte host "]" Hh3), IndexByte_cons.
    change (bytes.eqb "]" "]") with true. cbv iota. change (0 <=? 0) with true. cbv iota.
    replace (gostring.len host + 0 <? 0) with false by (symmetry; apply Z.ltb_ge; lia).
    lia. }
  assert (H0 : gostring.byteAt s 0 = Some "["%char) by (rewrite Es; reflexivity).
  assert (Hd1 : gostring.drop 1 s = host +:+ String "]" (String ":" port))
    by (rewrite Es; reflexivity).
  unfold net.SplitHostPort. rewrite Hi.
  replace (gostring.len host + 2 <? 0) with false by (symmetry; apply Z.ltb_ge; lia).
  rewrite H0. cbn [mbind option_bind].
  change (bytes.eqb "[" "[") with true. cbv iota. rewrite He.
  replace (gostring.len host + 1 <? 0) with false by (symmetry; apply Z.ltb_ge; lia).
  replace (gostring.len host + 1 + 1 =? gostring.len s) with false
    by (symmetry; apply Z.eqb_neq; lia).
  replace (gostring.len host + 1 + 1 =? gostring.len host + 2) with true
    by (symmetry; apply Z.eqb_eq; lia).
  rewrite slice_Some by lia. cbn [mbind option_bind].
  replace (Z.to_nat (gostring.len host + 1 - 1)) with (String.length host)
    by (unfold gostring.len; lia).
  change (Z.to_nat 1) with 1%nat. rewrite Hd1, take_app_exact.
  rewrite splitTail_ok; try lia.
  - replace (Z.to_nat (gostring.len host + 2 + 1))
      with (1 + (String.length host + 2))%nat by (unfold gostring.len; lia).
    rewrite <- !drop_drop, Hd1, drop_app_exact. reflexivity.
  - change (Z.to_nat 1) with 1%nat. rewrite Hd1.
    apply lacks_app; [exact Hh2|]. now repeat apply lacks_cons_intro.
  - replace (Z.to_nat (gostring.len host + 1 + 1))
      with (1 + (String.length host + 1))%nat by (unfold gostring.len; lia).
    rewrite <- !drop_drop, Hd1, drop_app_exact.
    simpl gostring.drop. apply lacks_cons_intro; [reflexivity | exact Hp3].
Qed.

(** The middleware always has a remote address to log. *)
Lemma remoteIPOf_Some (addr : string) : exists ip, remoteIPOf addr = Some ip.
Proof.
  unfold remoteIPOf.
  destruct (SplitHostPort_total addr) as [(host & port & -> & _)|[why ->]]; eauto.
Qed.

(** C7: the remote-address computation of the access logger is total.
    For every address string it yields a value and never panics; when
    [net.SplitHostPort] accepts the address, the address is [host:port] or
    [[host]:port] and the value is that host; otherwise the value is the
    address itself.  Addresses of the two forms, with no stray colon or
    bracket, are accepted. *)
Theorem remoteIPOf_total :
  (forall addr, exists ip,
      remoteIPOf addr = Some ip /\
      ((exists port,
           net.SplitHostPort addr = Some (ip, port, None) /\
           (addr = ip +:+ ":" +:+ port \/ addr = "[" +:+ ip +:+ "]:" +:+ port)) \/
       ((exists why, net.SplitHostPort addr = Some (net.addrErr addr why)) /\
        ip = addr))) /\
  (forall host port,
      lacks host ":" = true -> lacks host "[" = true -> lacks host "]" = true ->
      lacks port ":" = true -> lacks port "[" = true -> lacks port "]" = true ->
      remoteIPOf (host +:+ ":" +:+ port) = Some host) /\
  (forall host port,
      lacks host "[" = true -> lacks host "]" = true ->
      lacks port ":" = true -> lacks port "[" = true -> lacks port "]" = true ->
      remoteIPOf ("[" +:+ host +:+ "]:" +:+ port) = Some host).
Proof.
  split; [|split].
  - intros addr. unfold remoteIPOf.
    destruct (SplitHostPort_total addr) as [(host & port & Hok & Hshape)|[why Herr]].
    + exists host. rewrite Hok. split; [reflexivity|]. left. eauto.
    + exists addr. rewrite Herr. split; [reflexivity|]. right. eauto.
  - intros host port H1 H2 H3 H4 H5 H6. unfold remoteIPOf.
    now rewrite SplitHostPort_host_port.
  - intros host port H2 H3 H4 H5 H6. unfold remoteIPOf.
    now rewrite SplitHostPort_bracketed.
Qed.

Lemma remoteIPOf_total_witness :
  remoteIPOf "192.0.2.7:51234" = Some "192.0.2.7" /\
  remoteIPOf "[2001:db8::1]:443" = Some "2001:db8::1".
Proof.
  destruct remoteIPOf_total as (_ & Hplain & Hbracket). split.
  - apply (Hplain "192.0.2.7" "51234"); reflexivity.
  - apply (Hbracket "2001:db8::1" "443"); reflexivity.
Defined.

Example remoteIPOf_no_port : remoteIPOf "localhost" = Some "localhost".
Proof. reflexivity. Qed.

Example remoteIPOf_bare_ipv6 : remoteIPOf "2001:db8::1" = Some "2001:db8::1".
Proof. reflexivity. Qed.

Example remoteIPOf_unix_socket : remoteIPOf "@" = Some "@".
Proof. reflexivity. Qed.

(** * [strings.TrimSpace] *)

Lemma ascii_IsSpace (c : ascii) :
  (utf8.RuneSelf <=? bytes.code c) = false ->
  unicode.IsSpace (bytes.code c) = strings.asciiSpace c.
Proof. each_byte c; intros H; try discriminate H; reflexivity. Qed.

Lemma asciiSpace_ascii (c : ascii) :
  strings.asciiSpace c = true -> (utf8.RuneSelf <=? bytes.code c) = false.
Proof. each_byte c; intros H; try discriminate H; reflexivity. Qed.

Lemma DecodeRune_ascii (c : ascii) (rest : string) :
  (utf8.RuneSelf <=? bytes.code c) = false ->
  utf8.DecodeRuneInString (String c rest) = (bytes.code c, 1%nat).
Proof.
  intros H. unfold utf8.DecodeRuneInString, utf8.first.
  apply Z.leb_gt in H. unfold utf8.RuneSelf in H.
  now replace (bytes.code c <? 128) with true by (symmetry; apply Z.ltb_lt; exact H).
Qed.

(** Whether a rune is found does not depend on the index the search
    starts counting from. *)
Lemma indexFuncFrom_shift (fuel : nat) (f : Z -> bool) (t : bool) (s : string) (i j : Z) :
  0 <= i -> 0 <= j ->
  strings.indexFuncFrom fuel f t s i = -1 -> strings.indexFuncFrom fuel f t s j = -1.
Proof.
  revert s i j; induction fuel as [|fuel IH]; intros s i j Hi Hj; simpl; [auto|].
  destruct s as [|c rest]; [auto|].
  destruct (utf8.DecodeRuneInString (String c rest)) as [r size].
  destruct (Bool.eqb (f r) t); [lia|].
  apply IH; lia.
Qed.

Lemma whitespaceOnly_cons (c : ascii) (rest : string) :
  (utf8.RuneSelf <=? bytes.code c) = false ->
  whitespaceOnly (String c rest) ->
  strings.asciiSpace c = true /\ whitespaceOnly rest.
Proof.
  intros Hc. unfold whitespaceOnly, strings.indexFunc.
  change (String.length (String c rest)) with (S (String.length rest)).
  cbn [strings.indexFuncFrom]. rewrite (DecodeRune_ascii c rest Hc), (ascii_IsSpace c Hc).
  destruct (strings.asciiSpace c); simpl; [|discriminate].
  intros H. split; [reflexivity|].
  apply (indexFuncFrom_shift _ _ _ _ (0 + Z.of_nat 1) 0); [lia | lia | exact H].
Qed.

(** A value that is white space only trims to the empty string. *)
Lemma TrimSpace_whitespaceOnly (s : string) :
  whitespaceOnly s -> strings.TrimSpace s = EmptyString.
Proof.
  induction s as [|c rest IH]; intros Hs; [reflexivity|].
  cbn [strings.TrimSpace].
  destruct (utf8.RuneSelf <=? bytes.code c) eqn:Hc.
  - unfold strings.TrimFunc, strings.TrimLeftFunc. rewrite Hs. reflexivity.
  - destruct (whitespaceOnly_cons c rest Hc Hs) as [-> Hrest]. now apply IH.
Qed.

Lemma asciiSpaces_whitespaceOnly (s : string) :
  asciiSpaces s = true -> whitespaceOnly s.
Proof.
  induction s as [|c rest IH]; [reflexivity|].
  cbn [asciiSpaces]. intros H. apply andb_true_iff in H as [Hc Hrest].
  pose proof (asciiSpace_ascii c Hc) as Hascii.
  unfold whitespaceOnly, strings.indexFunc.
  change (String.length (String c rest)) with (S (String.length rest)).
  cbn [strings.indexFuncFrom].
  rewrite (DecodeRune_ascii c rest Hascii), (ascii_IsSpace c Hascii), Hc. simpl.
  apply (indexFuncFrom_shift _ _ _ _ 0 (0 + Z.of_nat 1)); [lia | lia |].
  now apply IH.
Qed.

Example nbsp_whitespaceOnly :
  whitespaceOnly (String (bytes.ofZ 0xC2) (String (bytes.ofZ 0xA0) " ")).
Proof. reflexivity. Qed.

Lemma TrimSpace_leading (l x : string) :
  asciiSpaces l = true -> strings.TrimSpace (l +:+ x) = strings.TrimSpace x.
Proof.
  induction l as [|c l IH]; [reflexivity|].
  cbn [asciiSpaces]. intros H. apply andb_true_iff in H as [Hc Hl].
  rewrite append_cons. cbn [strings.TrimSpace].
  rewrite (asciiSpace_ascii c Hc), Hc. now apply IH.
Qed.

Lemma get_app_r (a b : string) (k : nat) :
  String.get (String.length a + k) (a +:+ b) = String.get k b.
Proof. induction a as [|c a IH]; [reflexivity | exact IH]. Qed.

Lemma get_app_l (a b : string) (k : nat) (c : ascii) :
  String.get k a = Some c -> String.get k (a +:+ b) = Some c.
Proof.
  revert k; induction a as [|x a IH]; intros [|k]; simpl; try discriminate; [auto|].
  apply IH.
Qed.

Lemma asciiSpaces_get (r : string) (k : nat) (c : ascii) :
  asciiSpaces r = true -> String.get k r = Some c -> strings.asciiSpace c = true.
Proof.
  revert k; induction r as [|x r IH]; intros k; [destruct k; discriminate|].
  cbn [asciiSpaces]. intros H. apply andb_true_iff in H as [Hx Hr].
  destruct k as [|k]; simpl; [now intros [= <-] | now apply IH].
Qed.

Lemma trimStop_trailing (core r : string) (k : nat) :
  asciiSpaces r = true -> (k <= String.length r)%nat ->
  strings.trimStop (String.length core + k) (core +:+ r) =
  strings.trimStop (String.length core) (core +:+ r).
Proof.
  intros Hr. induction k as [|k IH]; intros Hk; [now rewrite Nat.add_0_r|].
  rewrite Nat.add_succ_r. cbn [strings.trimStop].
  rewrite get_app_r.
  destruct (get_in_range k r) as [c Hc]; [lia|].
  rewrite Hc. pose proof (asciiSpaces_get r k c Hr Hc) as Hsp.
  rewrite (asciiSpace_ascii c Hsp), Hsp. apply IH. lia.
Qed.

(** White space in ASCII around a value that begins and ends with an
    ASCII byte other than white space is trimmed away, and nothing
    else. *)
Lemma TrimSpace_padding (l r mid : string) (a b : ascii) :
  asciiSpaces l = true -> asciiSpaces r = true ->
  solid a = true -> solid b = true ->
  String.get (String.length mid) (String a mid) = Some b ->
  strings.TrimSpace (l +:+ String a mid +:+ r) = String a mid.
Proof.
  intros Hl Hr Ha Hb Hlast.
  rewrite (TrimSpace_leading l _ Hl), append_cons.
  apply andb_true_iff in Ha as [Ha1 Ha2]. apply negb_true_iff in Ha1, Ha2.
  apply andb_true_iff in Hb as [Hb1 Hb2]. apply negb_true_iff in Hb1, Hb2.
  cbn [strings.TrimSpace]. rewrite Ha1, Ha2.
  rewrite <- append_cons.
  replace (String.length (String a mid +:+ r))
    with (String.length (String a mid) + String.length r)%nat
    by (pose proof (len_app (String a mid) r) as H; unfold gostring.len in H; lia).
  rewrite (trimStop_trailing (String a mid) r _ Hr) by lia.
  change (String.length (String a mid)) with (S (String.length mid)).
  cbn [strings.trimStop].
  rewrite (get_app_l (String a mid) r _ b Hlast), Hb1, Hb2.
  change (S (String.length mid)) with (String.length (String a mid)).
  apply take_app_exact.
Qed.

Example TrimSpace_base_url :
  strings.TrimSpace ("  https://api.mist.com" +:+ String "010" EmptyString)
  = "https://api.mist.com".
Proof. reflexivity. Qed.

(** * Startup *)

Section Startup.

Variable url_Parse : string -> url.URL + string.

Lemma main_missing (env : gmap string string) :
  strings.TrimSpace (Getenv env envBaseURL) = EmptyString \/
  strings.TrimSpace (Getenv env envToken) = EmptyString ->
  main url_Parse env = Fatalf missingEnvFormat [ArgString envBaseURL; ArgString envToken].
Proof.
  intros H. unfold main.
  destruct H as [-> | ->]; [reflexivity|].
  now rewrite orb_true_r.
Qed.

Lemma main_serving (env : gmap string string) (addr : string) (target : url.URL)
    (tok : string) :
  main url_Parse env = ListenAndServe addr target tok ->
  url_Parse (strings.TrimSpace (Getenv env envBaseURL)) = inl target /\
  tok = strings.TrimSpace (Getenv env envToken) /\
  addr = listenAddrOf env /\
  strings.TrimSpace (Getenv env envBaseURL) <> EmptyString /\
  tok <> EmptyString.
Proof.
  unfold main, listenAddrOf.
  destruct (String.eqb (strings.TrimSpace (Getenv env envBaseURL)) EmptyString) eqn:Hb;
    [discriminate|].
  destruct (String.eqb (strings.TrimSpace (Getenv env envToken)) EmptyString) eqn:Ht;
    [discriminate|].
  cbn [orb].
  destruct (url_Parse (strings.TrimSpace (Getenv env envBaseURL))) as [t|e];
    [|discriminate].
  intros [= <- <- <-]. apply String.eqb_neq in Hb, Ht. auto.
Qed.

(** C9: every value read from the environment is trimmed before use.
    A required value that is white space only (or unset) is fatal at
    startup with the message for missing configuration; a server that
    starts was given the trimmed base URL to parse, holds the trimmed
    credential, and listens on the trimmed address, or on the default
    port when the listen address is white space only (or unset). *)
Theorem main_trims_environment (env : gmap string string) :
  ((whitespaceOnly (Getenv env envBaseURL) \/ whitespaceOnly (Getenv env envToken)) ->
   main url_Parse env =
   Fatalf missingEnvFormat [ArgString envBaseURL; ArgString envToken]) /\
  (forall addr target tok,
      main url_Parse env = ListenAndServe addr target tok ->
      url_Parse (strings.TrimSpace (Getenv env envBaseURL)) = inl target /\
      tok = strings.TrimSpace (Getenv env envToken) /\
      tok <> EmptyString /\
      addr = (if String.eqb (strings.TrimSpace (Getenv env envListenAddr)) EmptyString
              then defaultListenAddr
              else strings.TrimSpace (Getenv env envListenAddr)) /\
      (whitespaceOnly (Getenv env envListenAddr) -> addr = defaultListenAddr) /\
      (forall l r a mid b,
          Getenv env envToken = l +:+ String a mid +:+ r ->
          asciiSpaces l = true -> asciiSpaces r = true ->
          solid a = true -> solid b = true ->
          String.get (String.length mid) (String a mid) = Some b ->
          tok = String a mid)).
Proof.
  split.
  - intros H. apply main_missing.
    destruct H as [H|H]; [left|right]; now apply TrimSpace_whitespaceOnly.
  - intros addr target tok Hmain.
    destruct (main_serving env addr target tok Hmain) as (Hp & Ht & Ha & _ & Hne).
    split; [exact Hp|]. split; [exact Ht|]. split; [exact Hne|]. split; [exact Ha|].
    split.
    + intros Hws. rewrite Ha. unfold listenAddrOf.
      now rewrite (TrimSpace_whitespaceOnly _ Hws).
    + intros l r a mid b Henv Hl Hr Hsa Hsb Hlast. rewrite Ht, Henv.
      now apply (TrimSpace_padding l r mid a b).
Qed.

End Startup.

Lemma main_trims_environment_witness :
  main parseMist blankTokenEnv =
    Fatalf missingEnvFormat [ArgString envBaseURL; ArgString envToken] /\
  exists target, main parseMist paddedEnv = ListenAndServe ":8080" target "secret".
Proof.
  split.
  - apply (main_trims_environment parseMist blankTokenEnv). right. reflexivity.
  - eexists. vm_compute. reflexivity.
Defined.

(** * The health reporter *)

(** A request for [/health], whatever else it holds and whatever the
    upstream would do, is answered by the health handler alone. *)
Lemma serve_health (target : url.URL) (token : string)
    (transport : Request.t -> Response.t + string) (req : Request.t)
    (log : list LogLine) (ip : string) :
  url.Path (Request.URL req) = "/health" ->
  remoteIPOf (Request.RemoteAddr req) = Some ip ->
  http.serve (handler target token transport) req log =
  (Returned tt, {| rw := healthResponse;
                   stderr := (log ++ [accessLine req 200 ip])%list;
                   steps := [] |}).
Proof.
  intros Hpath Hip.
  unfold http.serve, handler, loggingMiddleware, bind. rewrite Hip.
  unfold http.ServeMux. rewrite Hpath. reflexivity.
Qed.

(** C5: every GET request to [/health] is answered with status 200, the
    body [{"status":"ok"}] (the fifteen bytes spelled out below, which
    the handler writes and the client is sent) and the content type
    [application/json]; the answer does not depend on the upstream
    (target, credential or what a round trip would bring), and nothing is
    sent upstream. *)
Theorem health_GET (target : url.URL) (token : string)
    (transport : Request.t -> Response.t + string) (req : Request.t)
    (log : list LogLine) :
  Request.Method req = "GET" ->
  url.Path (Request.URL req) = "/health" ->
  exists w,
    http.serve (handler target token transport) req log = (Returned tt, w) /\
    http.status (rw w) = 200 /\
    http.written (rw w) =
      String "{" (String "034" ("status" +:+ String "034" (":" +:+
        String "034" ("ok" +:+ String "034" "}")))) /\
    http.bodySent req (rw w) = http.written (rw w) /\
    http.sentHeader (rw w) !! "Content-Type" = Some ["application/json"] /\
    steps w = [] /\
    forall target' token' transport',
      http.serve (handler target' token' transport') req log = (Returned tt, w).
Proof.
  intros Hget Hpath.
  destruct (remoteIPOf_Some (Request.RemoteAddr req)) as [ip Hip].
  eexists. split; [now apply (serve_health _ _ _ _ _ ip)|].
  cbn [rw steps]. split; [reflexivity|]. split; [reflexivity|].
  split; [unfold http.bodySent, http.chunkWriter_Write; now rewrite Hget|].
  split; [reflexivity|]. split; [reflexivity|].
  intros target' token' transport'. now apply serve_health.
Qed.

Lemma health_GET_witness :
  exists w,
    http.serve (handler mistTarget "secret" unreachable) (healthRequest "GET") []
    = (Returned tt, w) /\
    http.status (rw w) = 200 /\
    http.bodySent (healthRequest "GET") (rw w) =
      String "{" (String "034" ("status" +:+ String "034" (":" +:+
        String "034" ("ok" +:+ String "034" "}")))) /\
    steps w = [].
Proof.
  destruct (health_GET mistTarget "secret" unreachable (healthRequest "GET") []
              eq_refl eq_refl) as (w & Hserve & Hstatus & Hbody & Hsent & _ & Hsteps & _).
  exists w. rewrite Hsent. auto.
Defined.

(** C10 as the specification states it fails for the method HEAD: the
    handler writes the body as for any method, and the server sends the
    client of a HEAD request the status and headers without it. *)
Lemma health_HEAD_no_body :
  let req := healthRequest "HEAD" in
  let served := http.serve (handler mistTarget "secret" unreachable) req [] in
  fst served = Returned tt /\
  http.status (rw (snd served)) = 200 /\
  String.length (http.written (rw (snd served))) = 15%nat /\
  http.bodySent req (rw (snd served)) = EmptyString.
Proof. vm_compute. repeat split. Qed.

(** C10 (amended): the health handler does not look at the request, so
    a request for [/health] with any method is answered by the same run
    of the handler: status 200, the content type [application/json], and
    the body [{"status":"ok"}] written to the response.  The client is
    sent that body for every method but HEAD, and no body for HEAD. *)
Theorem health_any_method (target : url.URL) (token : string)
    (transport : Request.t -> Response.t + string) (req : Request.t)
    (log : list LogLine) :
  url.Path (Request.URL req) = "/health" ->
  let served := http.serve (handler target token transport) req log in
  fst served = Returned tt /\
  http.status (rw (snd served)) = 200 /\
  http.sentHeader (rw (snd served)) !! "Content-Type" = Some ["application/json"] /\
  http.written (rw (snd served)) =
    String "{" (String "034" ("status" +:+ String "034" (":" +:+
      String "034" ("ok" +:+ String "034" "}")))) /\
  http.bodySent req (rw (snd served)) =
    (if String.eqb (Request.Method req) "HEAD" then EmptyString
     else http.written (rw (snd served))) /\
  forall W (RW : http.ResponseWriter W) (req' : Request.t),
    healthHandler W RW req' = healthHandler W RW req.
Proof.
  intros Hpath served. unfold served.
  destruct (remoteIPOf_Some (Request.RemoteAddr req)) as [ip Hip].
  rewrite (serve_health target token transport req log ip Hpath Hip).
  cbn [fst snd rw]. repeat split.
Qed.

Lemma health_any_method_witness :
  http.bodySent (healthRequest "DELETE")
    (rw (snd (http.serve (handler mistTarget "secret" unreachable) (healthRequest "DELETE") [])))
  = String "{" (String "034" ("status" +:+ String "034" (":" +:+
      String "034" ("ok" +:+ String "034" "}")))) /\
  http.status
    (rw (snd (http.serve (handler mistTarget "secret" unreachable) (healthRequest "POST") [])))
  = 200.
Proof.
  split.
  - destruct (health_any_method mistTarget "secret" unreachable (healthRequest "DELETE") []
                eq_refl) as (_ & _ & _ & Hbody & Hsent & _).
    rewrite Hsent. exact Hbody.
  - apply (health_any_method mistTarget "secret" unreachable (healthRequest "POST") []).
    reflexivity.
Defined.

(** * The upstream failure translator *)


Lemma serve_logged_proxy_failure (target : url.URL) (token : string)
    (transport : Request.t -> Response.t + string) (req : Request.t)
    (err : string) (log : list LogLine) (ip : string) :
  transport (httputil.Director (newMistProxy target token) req) = inr err ->
  remoteIPOf (Request.RemoteAddr req) = Some ip ->
  http.serve (loggingMiddleware (httputil.ServeHTTP (newMistProxy target token) transport))
             req log =
  (Returned tt,
   {| rw := badGatewayResponse;
      stderr := (log ++ [proxyErrorLine err; accessLine req 502 ip])%list;
      steps := [SentUpstream (httputil.Director (newMistProxy target token) req);
                FailureTranslated err] |}).
Proof.
  intros Hfail Hip. unfold http.serve, loggingMiddleware, bind at 1. rewrite Hip.
  unfold httputil.ServeHTTP, bind at 1. cbn [step]. rewrite Hfail.
  change (log ++ [proxyErrorLine err; accessLine req 502 ip])%list
    with (log ++ ([proxyErrorLine err] ++ [accessLine req 502 ip]))%list.
  rewrite app_assoc. reflexivity.
Qed.

(** When the round trip brings a response, the response rewrite runs
    and the failure translator does not. *)
Lemma serve_proxy_response_steps (target : url.URL) (token : string)
    (transport : Request.t -> Response.t + string) (req : Request.t)
    (res : Response.t) (log : list LogLine) :
  transport (httputil.Director (newMistProxy target token) req) = inl res ->
  steps (snd (http.serve (httputil.ServeHTTP (newMistProxy target token) transport) req log))
  = [SentUpstream (httputil.Director (newMistProxy target token) req);
     ResponseRewrite res].
Proof.
  intros Hres. unfold http.serve, httputil.ServeHTTP, bind at 1.
  unfold bind at 1. cbn [step]. rewrite Hres.
  unfold httputil.modifyResponse. cbn -[stripHopHeaders httputil.copyHeader].
  unfold http.response_WriteHeader, http.response_Write, http.response_WriteHeader, bind.
  cbn -[stripHopHeaders httputil.copyHeader].
  repeat match goal with
         | |- context [if ?b then _ else _] => destruct b; cbn -[stripHopHeaders httputil.copyHeader]
         | |- context [match Response.BodyErr ?r with _ => _ end] =>
             destruct (Response.BodyErr r); cbn -[stripHopHeaders httputil.copyHeader]
         end; reflexivity.
Qed.



(** * The access logger *)

Lemma lastWriteHeader_none (cs : list WriterCall) (d : Z) :
  forallb (fun c => negb (isWriteHeader c)) cs = true -> lastWriteHeader cs d = d.
Proof.
  induction cs as [|c cs IH]; [reflexivity|].
  cbn [forallb]. intros H. apply andb_true_iff in H as [Hc Hcs].
  destruct c; try discriminate Hc; now apply IH.
Qed.

(** A handler that sets the status once, and first, is logged with the
    status the client is sent. *)
Lemma writesHeaderOnce_agree (cs : list WriterCall) :
  writesHeaderOnce cs = true -> lastWriteHeader cs http.StatusOK = firstStatus cs.
Proof.
  induction cs as [|c cs IH]; [reflexivity|].
  destruct c as [k v|k|code|data]; cbn [writesHeaderOnce lastWriteHeader firstStatus];
    try exact IH.
  - intros H. apply andb_true_iff in H as [Hcode Hrest].
    apply negb_true_iff in Hcode. rewrite Hcode. now apply lastWriteHeader_none.
  - intros H. now apply lastWriteHeader_none.
Qed.

(** ** The wrapper against the writer it embeds *)

Lemma withRW_id {W} (w : World W) : withRW w (rw w) = w.
Proof. now destruct w. Qed.

(** One call on the logging writer is that call on the embedded writer;
    [WriteHeader] also stores its code. *)
Lemma call_embedded {W} `{http.ResponseWriter W} (c : WriterCall)
    (w : World (loggingResponseWriter W)) :
  call c w =
  (fst (call c (withRW w (ResponseWriter (rw w)))),
   withRW (snd (call c (withRW w (ResponseWriter (rw w)))))
          {| ResponseWriter := rw (snd (call c (withRW w (ResponseWriter (rw w)))));
             statusCode := match c with
                           | CallWriteHeader code => code
                           | _ => statusCode (rw w)
                           end |}).
Proof.
  destruct w as [[r sc] l st]. destruct c as [k v|k|code|data]; try reflexivity.
  - change (call (CallWriteHeader code)
              (withRW {| rw := {| ResponseWriter := r; statusCode := sc |};
                         stderr := l; steps := st |}
                      (ResponseWriter (rw {| rw := {| ResponseWriter := r; statusCode := sc |};
                                             stderr := l; steps := st |}))))
      with (http.WriteHeader code {| rw := r; stderr := l; steps := st |}).
    change (call (CallWriteHeader code)
              {| rw := {| ResponseWriter := r; statusCode := sc |};
                 stderr := l; steps := st |})
      with (let '(o, w') := http.WriteHeader code {| rw := r; stderr := l; steps := st |} in
            (o, withRW w' {| ResponseWriter := rw w'; statusCode := code |})).
    now destruct (http.WriteHeader code {| rw := r; stderr := l; steps := st |}).
  - change (call (CallWrite data)
              (withRW {| rw := {| ResponseWriter := r; statusCode := sc |};
                         stderr := l; steps := st |}
                      (ResponseWriter (rw {| rw := {| ResponseWriter := r; statusCode := sc |};
                                             stderr := l; steps := st |}))))
      with (bind (http.Write data) (fun _ => ret tt) {| rw := r; stderr := l; steps := st |}).
    change (call (CallWrite data)
              {| rw := {| ResponseWriter := r; statusCode := sc |};
                 stderr := l; steps := st |})
      with (match (let '(o, w') := http.Write data {| rw := r; stderr := l; steps := st |} in
                   (o, withRW w' {| ResponseWriter := rw w'; statusCode := sc |})) with
            | (Returned _, w') => (Returned tt, w')
            | (Panicked v, w') => (Panicked v, w')
            end).
    unfold bind.
    now destruct (http.Write data {| rw := r; stderr := l; steps := st |}) as [[a|v] w1].
Qed.

(** A run of calls on the logging writer is that run on the embedded
    writer, and when it returns the stored code is that of the last
    [WriteHeader]. *)
Lemma calls_embedded {W} `{http.ResponseWriter W} (cs : list WriterCall) :
  forall (w : World (loggingResponseWriter W)),
  exists sc,
    calls cs w =
    (fst (calls cs (withRW w (ResponseWriter (rw w)))),
     withRW (snd (calls cs (withRW w (ResponseWriter (rw w)))))
            {| ResponseWriter := rw (snd (calls cs (withRW w (ResponseWriter (rw w)))));
               statusCode := sc |}) /\
    (fst (calls cs (withRW w (ResponseWriter (rw w)))) = Returned tt ->
     sc = lastWriteHeader cs (statusCode (rw w))).
Proof.
  induction cs as [|c cs IH]; intros w.
  - exists (statusCode (rw w)). split; [|reflexivity].
    destruct w as [[r sc] l st]. reflexivity.
  - cbn [calls]. unfold bind. rewrite (call_embedded c w).
    destruct (call c (withRW w (ResponseWriter (rw w)))) as [[[]|v] w1] eqn:Hc;
      cbn [fst snd].
    + destruct (IH (withRW w1 {| ResponseWriter := rw w1;
                                 statusCode := match c with
                                               | CallWriteHeader code => code
                                               | _ => statusCode (rw w)
                                               end |})) as (sc & Hrun & Hsc).
      cbn [rw withRW ResponseWriter statusCode] in Hrun, Hsc.
      replace (withRW (withRW w1 {| ResponseWriter := rw w1;
                                    statusCode := match c with
                                                  | CallWriteHeader code => code
                                                  | _ => statusCode (rw w)
                                                  end |}) (rw w1))
        with w1 in Hrun, Hsc by now destruct w1.
      exists sc. split; [exact Hrun|].
      intros Hret. rewrite (Hsc Hret). now destruct c.
    + eexists. split; [reflexivity | discriminate].
Qed.

(** ** The server's writer under a run of calls *)

(** What one call does to the server's writer: it sends nothing
    upstream, logs at most the line for a superfluous [WriteHeader], and
    settles the status at most once. *)
Lemma call_response (c : WriterCall) (w : World http.response) :
  let o := fst (call c w) in
  let w' := snd (call c w) in
  steps w' = steps w /\
  (exists n, stderr w' = (stderr w ++ repeat superfluousLine n)%list) /\
  (http.wroteHeader (rw w) = true ->
   http.wroteHeader (rw w') = true /\ http.status (rw w') = http.status (rw w)) /\
  (http.wroteHeader (rw w) = false -> o = Returned tt ->
   match c with
   | CallWriteHeader code =>
       if informationalCode code then http.wroteHeader (rw w') = false
       else http.wroteHeader (rw w') = true /\ http.status (rw w') = code
   | CallWrite _ => http.wroteHeader (rw w') = true /\ http.status (rw w') = http.StatusOK
   | _ => http.wroteHeader (rw w') = false
   end).
Proof.
  destruct w as [[hh wrote st sh inf body] l ps].
  destruct c as [k v|k|code|data]; cbn [rw http.wroteHeader http.status].
  - repeat split; try (exists 0%nat; symmetry; apply app_nil_r); auto.
  - repeat split; try (exists 0%nat; symmetry; apply app_nil_r); auto.
  - destruct wrote.
    + repeat split; try discriminate. exists 1%nat. reflexivity.
    + cbn [call]. unfold http.WriteHeader, http.response_ResponseWriter,
        http.response_WriteHeader, bind, getRW, informationalCode.
      cbn [rw http.wroteHeader fst snd].
      destruct ((code <? 100) || (999 <? code)) eqn:Hvalid.
      * repeat split; try discriminate. exists 0%nat. symmetry. apply app_nil_r.
      * destruct ((100 <=? code) && (code <=? 199) &&
                  negb (code =? http.StatusSwitchingProtocols));
          repeat split; try discriminate; exists 0%nat; symmetry; apply app_nil_r.
  - destruct wrote.
    + cbn [call]. unfold http.Write, http.response_ResponseWriter, http.response_Write,
        bind, getRW, ret. cbn [rw http.wroteHeader http.status fst snd].
      destruct (gostring.len data =? 0);
        [|destruct (negb (http.bodyAllowedForStatus st))];
        repeat split; try discriminate; exists 0%nat; symmetry; apply app_nil_r.
    + cbn [call]. unfold http.Write, http.response_ResponseWriter, http.response_Write,
        bind, getRW, ret. cbn.
      destruct (gostring.len data =? 0);
        repeat split; try discriminate; exists 0%nat; symmetry; apply app_nil_r.
Qed.

Lemma repeat_app {A} (x : A) (n m : nat) :
  (repeat x n ++ repeat x m)%list = repeat x (n + m).
Proof. induction n as [|n IH]; simpl; [reflexivity | now rewrite IH]. Qed.

(** A run of calls that returns leaves the status of the first final
    header, or none yet; it logs nothing but superfluous-call lines. *)
Lemma calls_response (cs : list WriterCall) :
  forall (w w' : World http.response) (o : outcome unit),
  calls cs w = (o, w') ->
  steps w' = steps w /\
  (exists n, stderr w' = (stderr w ++ repeat superfluousLine n)%list) /\
  (http.wroteHeader (rw w) = true ->
   http.wroteHeader (rw w') = true /\ http.status (rw w') = http.status (rw w)) /\
  (http.wroteHeader (rw w) = false -> o = Returned tt ->
   (http.wroteHeader (rw w') = true -> http.status (rw w') = firstStatus cs) /\
   (http.wroteHeader (rw w') = false -> firstStatus cs = http.StatusOK)).
Proof.
  induction cs as [|c cs IH]; intros w w' o Hrun.
  - injection Hrun as <- <-. repeat split; auto.
    + exists 0%nat. symmetry. apply app_nil_r.
    + congruence.
  - cbn [calls] in Hrun. unfold bind in Hrun.
    pose proof (call_response c w) as (Hs & [n Hl] & Hw & Hf).
    destruct (call c w) as [[[]|v] w1]; cbn [fst snd] in *.
    + destruct (IH w1 w' o Hrun) as (Hs' & [m Hl'] & Hw' & Hf').
      split; [congruence|]. split.
      { exists (n + m)%nat. now rewrite Hl', Hl, <- app_assoc, repeat_app. }
      split.
      { intros Hwrote. destruct (Hw Hwrote) as [Hw1 Hst1].
        destruct (Hw' Hw1) as [Hw2 Hst2]. split; congruence. }
      intros Hfresh Hret. specialize (Hf Hfresh eq_refl).
      destruct c as [k v|k|code|data]; cbn [firstStatus].
      * exact (Hf' Hf Hret).
      * exact (Hf' Hf Hret).
      * destruct (informationalCode code); [exact (Hf' Hf Hret)|].
        destruct Hf as [Hw1 Hst1]. destruct (Hw' Hw1) as [Hw2 Hst2].
        split; [congruence|]. intros Hno. congruence.
      * destruct Hf as [Hw1 Hst1]. destruct (Hw' Hw1) as [Hw2 Hst2].
        split; [congruence|]. intros Hno. congruence.
    + injection Hrun as <- <-.
      split; [exact Hs|]. split; [eauto|]. split; [exact Hw|]. discriminate.
Qed.

Lemma finishRequest_response (w : World http.response) :
  exists w',
    http.finishRequest w = (Returned tt, w') /\
    stderr w' = stderr w /\ steps w' = steps w /\
    http.wroteHeader (rw w') = true /\
    http.status (rw w') =
      (if http.wroteHeader (rw w) then http.status (rw w) else http.StatusOK).
Proof.
  destruct w as [[hh wrote st sh inf body] l ps]. destruct wrote.
  - eexists. split; [reflexivity|]. repeat split.
  - eexists. split; [reflexivity|]. repeat split.
Qed.

(** ** The middleware *)

(** The middleware around a handler given by its calls: the calls run on
    the writer, and when they return one access line is logged with the
    code of the last [WriteHeader]; when they panic nothing is logged. *)
Lemma loggingMiddleware_run (cs : list WriterCall) (req : Request.t)
    (w : World http.response) (ip : string) :
  remoteIPOf (Request.RemoteAddr req) = Some ip ->
  loggingMiddleware (handlerOf cs) http.response _ req w =
  match calls cs w with
  | (Returned _, w') =>
      (Returned tt,
       {| rw := rw w';
          stderr := (stderr w' ++ [accessLine req (lastWriteHeader cs http.StatusOK) ip])%list;
          steps := steps w' |})
  | (Panicked v, w') => (Panicked v, w')
  end.
Proof.
  intros Hip. unfold loggingMiddleware. rewrite Hip. unfold handlerOf.
  destruct (calls_embedded cs
              (withRW w {| ResponseWriter := rw w; statusCode := http.StatusOK |}))
    as (sc & Hrun & Hsc).
  cbn [rw withRW ResponseWriter statusCode] in Hrun, Hsc.
  replace (withRW (withRW w {| ResponseWriter := rw w; statusCode := http.StatusOK |}) (rw w))
    with w in Hrun, Hsc by now destruct w.
  rewrite Hrun. clear Hrun.
  destruct (calls cs w) as [[[]|v] w1]; cbn [fst snd] in *.
  - rewrite (Hsc eq_refl). now destruct w1.
  - now destruct w1.
Qed.

(** C6 as the specification states it fails on a handler that calls
    [WriteHeader] twice: the client is sent the first status, 200, and
    the access line carries the last, 500. *)
Lemma loggingMiddleware_logs_last_code :
  let served := http.serve (loggingMiddleware (handlerOf twoHeaders)) sitesRequest [] in
  fst served = Returned tt /\
  http.status (rw (snd served)) = 200 /\
  stderr (snd served) = [superfluousLine; accessLine sitesRequest 500 "192.0.2.7"].
Proof. vm_compute. repeat split. Qed.

(** C6 (amended): for every request whose handler returns, the access
    logger emits exactly one log record, after the handler's own log
    lines, and its status field is the code of the handler's last
    [WriteHeader] call, 200 when there is none.  The client is sent the
    status of the first final header (200 when the body is written first
    or nothing is written), so the record matches what was sent whenever
    the handler calls [WriteHeader] at most once, with a final status and
    before it writes to the body. *)
Theorem loggingMiddleware_records (cs : list WriterCall) (req : Request.t)
    (log : list LogLine) (w : World http.response) :
  http.serve (loggingMiddleware (handlerOf cs)) req log = (Returned tt, w) ->
  exists ip n,
    remoteIPOf (Request.RemoteAddr req) = Some ip /\
    stderr w = (log ++ repeat superfluousLine n ++
                [accessLine req (lastWriteHeader cs http.StatusOK) ip])%list /\
    http.status (rw w) = firstStatus cs /\
    (writesHeaderOnce cs = true ->
     http.status (rw w) = lastWriteHeader cs http.StatusOK).
Proof.
  intros Hserve.
  destruct (remoteIPOf_Some (Request.RemoteAddr req)) as [ip Hip].
  unfold http.serve, bind in Hserve.
  rewrite (loggingMiddleware_run cs req _ ip Hip) in Hserve.
  destruct (calls cs {| rw := http.newResponse; stderr := log; steps := [] |})
    as [[[]|v] w1] eqn:Hcalls;
    [|destruct (String.eqb v http.ErrAbortHandler); discriminate].
  destruct (calls_response cs _ _ _ Hcalls) as (_ & [n Hlog] & _ & Hstatus).
  cbn [rw stderr http.wroteHeader http.newResponse] in Hlog, Hstatus.
  destruct (Hstatus eq_refl eq_refl) as [Hwrote Hnot].
  destruct (finishRequest_response
              {| rw := rw w1;
                 stderr := (stderr w1 ++ [accessLine req (lastWriteHeader cs http.StatusOK) ip])%list;
                 steps := steps w1 |}) as (w2 & Hfin & Hl2 & _ & _ & Hst2).
  rewrite Hfin in Hserve. injection Hserve as <-.
  cbn [rw stderr] in Hl2, Hst2.
  assert (Hsent : http.status (rw w2) = firstStatus cs).
  { rewrite Hst2. destruct (http.wroteHeader (rw w1)); [now apply Hwrote|].
    symmetry. now apply Hnot. }
  exists ip, n. split; [exact Hip|]. split.
  - now rewrite Hl2, Hlog, <- app_assoc.
  - split; [exact Hsent|]. intros Honce. rewrite Hsent. symmetry.
    now apply writesHeaderOnce_agree.
Qed.

Lemma loggingMiddleware_records_witness :
  let served := http.serve (loggingMiddleware (handlerOf errorCalls)) sitesRequest [] in
  http.status (rw (snd served)) = 404 /\
  exists n, stderr (snd served)
            = (repeat superfluousLine n ++ [accessLine sitesRequest 404 "192.0.2.7"])%list.
Proof.
  intros served.
  assert (Hserved : served = (Returned tt, snd served)) by (vm_compute; reflexivity).
  destruct (loggingMiddleware_records errorCalls sitesRequest [] (snd served) Hserved)
    as (ip & n & Hip & Hlog & Hsent & _).
  split; [exact Hsent|].
  exists n. rewrite Hlog.
  assert (Hip' : remoteIPOf (Request.RemoteAddr sitesRequest) = Some "192.0.2.7")
    by (vm_compute; reflexivity).
  rewrite Hip' in Hip. now injection Hip as <-.
Defined.

(** When the handler panics the middleware logs no record: the line is
    written after [next.ServeHTTP] returns, and not in a deferred call.
    The log holds what the server itself wrote. *)
Lemma loggingMiddleware_panic (cs : list WriterCall) (req : Request.t)
    (log : list LogLine) (v : string) (w : World http.response) :
  http.serve (loggingMiddleware (handlerOf cs)) req log = (Panicked v, w) ->
  forall line, line ∈ stderr w -> line ∈ log \/ format line <> accessLogFormat.
Proof.
  intros Hserve line Hline.
  destruct (remoteIPOf_Some (Request.RemoteAddr req)) as [ip Hip].
  unfold http.serve, bind in Hserve.
  rewrite (loggingMiddleware_run cs req _ ip Hip) in Hserve.
  destruct (calls cs {| rw := http.newResponse; stderr := log; steps := [] |})
    as [[[]|v'] w1] eqn:Hcalls.
  - destruct (finishRequest_response
                {| rw := rw w1;
                   stderr := (stderr w1 ++ [accessLine req (lastWriteHeader cs http.StatusOK) ip])%list;
                   steps := steps w1 |}) as (w2 & Hfin & _).
    rewrite Hfin in Hserve. discriminate.
  - destruct (calls_response cs _ _ _ Hcalls) as (_ & [n Hlog] & _).
    cbn [stderr] in Hlog.
    assert (Hw1 : line ∈ stderr w1 -> line ∈ log \/ format line <> accessLogFormat).
    { rewrite Hlog, elem_of_app. intros [Hin|Hin]; [now left|right].
      apply list_elem_of_In, repeat_spec in Hin. now subst line. }
    destruct (String.eqb v' http.ErrAbortHandler); injection Hserve as <- <-.
    + now apply Hw1.
    + cbn [snd Printf stderr] in Hline. apply elem_of_app in Hline as [Hin|Hin].
      * now apply Hw1.
      * apply list_elem_of_singleton in Hin. subst line. now right.
Qed.

(** * Letter-casings of a header name *)

Lemma EqualFold_refl (s : string) : EqualFold s s = true.
Proof.
  induction s as [|c s IH]; [reflexivity|].
  cbn [EqualFold]. rewrite IH. unfold bytes.eqb. now rewrite Ascii.eqb_refl.
Qed.

Lemma EqualFold_sym (s t : string) : EqualFold s t = EqualFold t s.
Proof.
  revert t; induction s as [|a s IH]; intros [|b t]; try reflexivity.
  cbn [EqualFold]. rewrite IH. unfold bytes.eqb. now rewrite Ascii.eqb_sym.
Qed.

Lemma EqualFold_trans (s t u : string) :
  EqualFold s t = true -> EqualFold t u = true -> EqualFold s u = true.
Proof.
  revert t u; induction s as [|a s IH]; intros [|b t] [|c u]; cbn [EqualFold];
    try discriminate; [reflexivity|].
  intros H1 H2. apply andb_true_iff in H1 as [Hab Hst], H2 as [Hbc Htu].
  apply Ascii.eqb_eq in Hab, Hbc. rewrite Hab, Hbc.
  unfold bytes.eqb. rewrite Ascii.eqb_refl. now apply (IH t u).
Qed.

(** [canonicalize] changes the case of letters and nothing else. *)
Lemma EqualFold_canonicalize_self (s : string) :
  forall u, EqualFold s (textproto.canonicalize u s) = true.
Proof.
  induction s as [|c s IH]; intros u; [reflexivity|].
  rewrite canonicalize_cons. cbn [EqualFold]. rewrite IH, andb_true_r.
  destruct u; each_byte c; reflexivity.
Qed.

Lemma EqualFold_CanonicalMIMEHeaderKey (k : string) :
  EqualFold k (textproto.CanonicalMIMEHeaderKey k) = true.
Proof.
  rewrite CanonicalMIMEHeaderKey_spec. destruct (allValid k).
  - apply EqualFold_canonicalize_self.
  - apply EqualFold_refl.
Qed.

(** A name whose canonical form is one of the eight keys is one of the
    eight names under some letter-casing. *)
Lemma canonical_isHopName (k : string) :
  textproto.CanonicalMIMEHeaderKey k ∈ hopHeaders -> isHopName k = true.
Proof.
  intros Hin. pose proof (EqualFold_CanonicalMIMEHeaderKey k) as Hk.
  assert (Hn : exists n, In n hopHeaderNames /\
                         EqualFold (textproto.CanonicalMIMEHeaderKey k) n = true).
  { revert Hin. generalize (textproto.CanonicalMIMEHeaderKey k). intros c.
    unfold hopHeaders. rewrite !elem_of_cons, elem_of_nil.
    intros H.
    exists (if String.eqb c "Te" then "TE" else c).
    repeat (destruct H as [->|H]; [split; [simpl; tauto | reflexivity]|]).
    destruct H. }
  destruct Hn as (n & Hn & Hcn).
  unfold isHopName. apply existsb_exists. exists n. split; [exact Hn|].
  now apply (EqualFold_trans k (textproto.CanonicalMIMEHeaderKey k) n).
Qed.

Lemma isHopName_false_canonical (k : string) :
  isHopName k = false -> textproto.CanonicalMIMEHeaderKey k ∉ hopHeaders.
Proof.
  intros Hk Hin. apply canonical_isHopName in Hin. congruence.
Qed.

(** * The header hygiene filter on any header map *)

Lemma stripHopHeaders_subseteq (h : MIMEHeader) : stripHopHeaders h ⊆ h.
Proof.
  apply map_subseteq_spec. intros k vs. rewrite stripHopHeaders_lookup.
  now destruct (bool_decide (k ∈ hopHeaders)).
Qed.

Lemma stripHopHeaders_canonicalKeys (h : MIMEHeader) :
  canonicalKeys h -> canonicalKeys (stripHopHeaders h).
Proof.
  intros Hc k vs Hk. apply (Hc k vs).
  apply (lookup_weaken (stripHopHeaders h) h k vs Hk), stripHopHeaders_subseteq.
Qed.

(** X1: on every header map, whatever the form of its names, the filter
    only removes entries (what is left is a part of the map it was
    given), and read through [Values] and [Get], which canonicalize the
    name they are asked for, each of the eight names under any
    letter-casing has no value left while every other name reads as it
    did before. *)
Theorem stripHopHeaders_accessors (h : MIMEHeader) (name : string) :
  stripHopHeaders h ⊆ h /\
  (if isHopName name
   then header.Values (stripHopHeaders h) name = [] /\
        header.Get (stripHopHeaders h) name = EmptyString
   else header.Values (stripHopHeaders h) name = header.Values h name /\
        header.Get (stripHopHeaders h) name = header.Get h name).
Proof.
  split; [apply stripHopHeaders_subseteq|].
  destruct (isHopName name) eqn:Hname.
  - now apply stripHopHeaders_Values.
  - apply isHopName_false_canonical in Hname.
    unfold header.Values, header.Get. rewrite stripHopHeaders_lookup.
    now rewrite bool_decide_eq_false_2.
Qed.

(** * More on the request rewrite *)

(** X2: after the request rewrite the Accept header of the outbound
    request is exactly [application/json], whatever the inbound request
    carried: the key holds that one value, and the header accessors
    return it under any letter-casing of the name.  When the inbound
    header names are in canonical form the map holds no other entry for
    the name. *)
Theorem Director_Accept (target : url.URL) (token : string) (req : Request.t) :
  let out := httputil.Director (newMistProxy target token) req in
  Request.Header out !! "Accept" = Some ["application/json"] /\
  (forall name, EqualFold name "Accept" = true ->
     header.Values (Request.Header out) name = ["application/json"] /\
     header.Get (Request.Header out) name = "application/json") /\
  (canonicalKeys (Request.Header req) ->
   forall name, EqualFold name "Accept" = true -> name <> "Accept" ->
     Request.Header out !! name = None).
Proof.
  intros out.
  assert (Hk : Request.Header out !! "Accept" = Some ["application/json"]).
  { unfold out. rewrite Director_Header_lookup. reflexivity. }
  assert (Hc : forall name, EqualFold name "Accept" = true ->
                 textproto.CanonicalMIMEHeaderKey name = "Accept").
  { intros name Hname. now rewrite (EqualFold_canonical name "Accept" Hname eq_refl). }
  split; [exact Hk|]. split.
  - intros name Hname. unfold header.Values, header.Get. now rewrite (Hc name Hname), Hk.
  - intros Hcanon name Hname Hne. unfold out. rewrite Director_Header_lookup.
    destruct (bool_decide (name ∈ hopHeaders)); [reflexivity|].
    case_bool_decide as Hacc; [contradiction|].
    case_bool_decide as Hauth; [subst name; discriminate Hname|].
    destruct (Request.Header req !! name) as [vs|] eqn:Hlk; [|reflexivity].
    exfalso. apply Hne. rewrite <- (Hcanon name vs Hlk). now apply Hc.
Qed.

Lemma upgradeRequest_canonical : canonicalKeys (Request.Header upgradeRequest).
Proof. apply (bool_decide_unpack _). vm_compute. reflexivity. Defined.

Lemma Director_Accept_witness :
  Request.Header (httputil.Director (newMistProxy mistTarget "secret") upgradeRequest)
    !! "Accept" = Some ["application/json"] /\
  Request.Header (httputil.Director (newMistProxy mistTarget "secret") upgradeRequest)
    !! "accept" = None.
Proof.
  destruct (Director_Accept mistTarget "secret" upgradeRequest) as (Hk & _ & Hother).
  split; [exact Hk|].
  apply Hother; [exact upgradeRequest_canonical|reflexivity|discriminate].
Defined.

(** X3: the outbound request carries none of the eight hop-by-hop
    headers.  Read through [Values] and [Get] each of the names, under
    any letter-casing, has no value, whatever the inbound request
    carried; when the inbound header names are in canonical form the map
    holds no entry for the name at all. *)
Theorem Director_strips_hop_headers (target : url.URL) (token : string)
    (req : Request.t) (name : string) :
  isHopName name = true ->
  let out := httputil.Director (newMistProxy target token) req in
  header.Values (Request.Header out) name = [] /\
  header.Get (Request.Header out) name = EmptyString /\
  (canonicalKeys (Request.Header req) -> Request.Header out !! name = None).
Proof.
  intros Hname out. unfold out. rewrite Director_Header.
  destruct (stripHopHeaders_Values
              (header.Set_ (header.Set_ (Request.Header req) "Authorization"
                                        ("Token " +:+ token))
                           "Accept" "application/json") name Hname) as [Hv Hg].
  split; [exact Hv|]. split; [exact Hg|].
  intros Hcanon. rewrite <- Director_Header with (target := target).
  rewrite Director_Header_lookup.
  pose proof (isHopName_canonical name Hname) as Hin.
  case_bool_decide as Hhop; [reflexivity|].
  case_bool_decide as Hacc; [subst name; discriminate Hname|].
  case_bool_decide as Hauth; [subst name; discriminate Hname|].
  destruct (Request.Header req !! name) as [vs|] eqn:Hlk; [|reflexivity].
  exfalso. apply Hhop. now rewrite <- (Hcanon name vs Hlk).
Qed.

Lemma Director_strips_hop_headers_witness :
  header.Values
    (Request.Header (httputil.Director (newMistProxy mistTarget "secret") upgradeRequest))
    "proxy-authorization" = [] /\
  Request.Header (httputil.Director (newMistProxy mistTarget "secret") upgradeRequest)
    !! "Upgrade" = None.
Proof.
  split.
  - apply (Director_strips_hop_headers mistTarget "secret" upgradeRequest
             "proxy-authorization"). reflexivity.
  - apply (Director_strips_hop_headers mistTarget "secret" upgradeRequest "Upgrade").
    + reflexivity.
    + exact upgradeRequest_canonical.
Defined.

(** X4: the two hooks keep header names in canonical form.  A request
    whose header names are canonical leaves the director with canonical
    names, and a response whose header names are canonical leaves the
    response hook with canonical names; the hook reports no error. *)
Theorem hooks_keep_canonicalKeys (target : url.URL) (token : string) :
  (forall req, canonicalKeys (Request.Header req) ->
     canonicalKeys (Request.Header (httputil.Director (newMistProxy target token) req))) /\
  (exists hook,
     httputil.ModifyResponse (newMistProxy target token) = Some hook /\
     forall resp, snd (hook resp) = None /\
       (canonicalKeys (Response.Header resp) ->
        canonicalKeys (Response.Header (fst (hook resp))))).
Proof.
  split.
  - intros req Hcanon. rewrite Director_Header.
    apply stripHopHeaders_canonicalKeys.
    unfold header.Set_. apply map_Forall_insert_2; [reflexivity|].
    apply map_Forall_insert_2; [reflexivity|]. exact Hcanon.
  - eexists. split; [reflexivity|]. intros resp. split; [reflexivity|].
    intros Hcanon. cbn [fst Response.withHeader Response.Header].
    now apply stripHopHeaders_canonicalKeys.
Qed.

(** * The base path of the upstream *)

Lemma string_append_assoc (a b c : string) : (a +:+ b) +:+ c = a +:+ (b +:+ c).
Proof.
  induction a as [|x a IH]; [now rewrite !append_nil_l|].
  now rewrite !append_cons, IH.
Qed.

Lemma HasSuffix_slash (a : string) :
  gostring.HasSuffix a "/" = true ->
  a = gostring.take (String.length a - 1) a +:+ "/".
Proof.
  unfold gostring.HasSuffix. intros H. apply andb_true_iff in H as [_ H].
  apply String.eqb_eq in H. cbn [String.length] in H.
  transitivity (gostring.take (String.length a - 1) a +:+
                gostring.drop (String.length a - 1) a).
  - symmetry. apply take_drop.
  - now rewrite H.
Qed.

(** [singleJoiningSlash] puts exactly one slash between the two paths:
    it joins the first without a trailing slash to the second without a
    leading slash. *)
Lemma singleJoiningSlash_trim (a b : string) :
  httputil.singleJoiningSlash a b = TrimSuffix a "/" +:+ "/" +:+ TrimPrefix b "/".
Proof.
  unfold httputil.singleJoiningSlash, TrimSuffix, TrimPrefix.
  destruct (gostring.HasSuffix a "/") eqn:Ha, (gostring.HasPrefix b "/") eqn:Hb;
    cbn [andb negb String.length].
  - rewrite (HasSuffix_slash a Ha) at 1. apply string_append_assoc.
  - rewrite (HasSuffix_slash a Ha) at 1. apply string_append_assoc.
  - destruct (HasPrefix_slash b Hb) as [b' ->]. reflexivity.
  - reflexivity.
Qed.

(** X5: when neither the base URL nor the inbound URL keeps a separate
    encoded path, the outbound path is the base path without a trailing
    slash, one slash, and the inbound path without a leading slash: the
    base path is put in front of every request path, and the junction
    never has two slashes or none.  The outbound URL keeps no encoded
    path either. *)
Theorem Director_joins_base_path (target : url.URL) (token : string) (req : Request.t) :
  url.RawPath target = EmptyString ->
  url.RawPath (Request.URL req) = EmptyString ->
  let out := httputil.Director (newMistProxy target token) req in
  url.Path (Request.URL out) =
    TrimSuffix (url.Path target) "/" +:+ "/" +:+ TrimPrefix (url.Path (Request.URL req)) "/" /\
  url.RawPath (Request.URL out) = EmptyString.
Proof.
  intros Ht Hr out. unfold out.
  destruct (Director_URL target token req) as (_ & _ & _ & Hp & Hrp).
  rewrite Hp, Hrp. unfold httputil.joinURLPath. rewrite Ht, Hr. cbn [String.eqb andb fst snd].
  split; [apply singleJoiningSlash_trim | reflexivity].
Qed.

Lemma Director_joins_base_path_witness :
  url.Path (Request.URL (httputil.Director (newMistProxy mistTarget "secret") sitesRequest))
  = "/api/v1/sites".
Proof.
  apply (Director_joins_base_path mistTarget "secret" sitesRequest); reflexivity.
Defined.

(** * The relay of an upstream response *)

(** ** [copyHeader] *)

Lemma fold_Add_lookup (k : string) (vv : list string) :
  textproto.CanonicalMIMEHeaderKey k = k ->
  forall (d : MIMEHeader) (j : string),
  fold_left (fun d v => header.Add d k v) vv d !! j =
  if decide (j = k)
  then match vv with
       | [] => d !! k
       | _ :: _ => Some (default [] (d !! k) ++ vv)%list
       end
  else d !! j.
Proof.
  intros Hk. induction vv as [|v vv IH]; intros d j.
  - cbn [fold_left]. now destruct (decide (j = k)) as [->|].
  - cbn [fold_left]. rewrite IH. unfold header.Add. rewrite Hk.
    destruct (decide (j = k)) as [->|Hne].
    + rewrite lookup_insert_eq.
      destruct vv; [reflexivity|]. cbn [default from_option id].
      now rewrite <- app_assoc.
    + now rewrite lookup_insert_ne by congruence.
Qed.

(** With canonical names in [src], [copyHeader] appends the values of
    each name that has some to those [dst] holds for it. *)
Lemma copyHeader_lookup (dst src : MIMEHeader) :
  canonicalKeys src ->
  forall j, httputil.copyHeader dst src !! j =
            match src !! j with
            | Some (v :: vs) => Some (default [] (dst !! j) ++ v :: vs)%list
            | _ => dst !! j
            end.
Proof.
  unfold httputil.copyHeader.
  apply (map_fold_weak_ind
           (fun r m => canonicalKeys m ->
                       forall j, r !! j =
                                 match m !! j with
                                 | Some (v :: vs) => Some (default [] (dst !! j) ++ v :: vs)%list
                                 | _ => dst !! j
                                 end)).
  - intros _ j. now rewrite lookup_empty.
  - intros i x m r Hi IH Hcanon j.
    apply map_Forall_insert in Hcanon as [Hci Hcm]; [|exact Hi].
    rewrite (fold_Add_lookup i x Hci). specialize (IH Hcm).
    destruct (decide (j = i)) as [->|Hne].
    + rewrite lookup_insert_eq. rewrite (IH i), Hi. now destruct x.
    + rewrite lookup_insert_ne by congruence. apply IH.
Qed.

(** A response with canonical header names reaches the client without
    any of the eight names, under any letter-casing. *)
Lemma relayedHeader_hop (res : Response.t) (name : string) :
  canonicalKeys (Response.Header res) -> isHopName name = true ->
  relayedHeader res !! name = None /\ header.Values (relayedHeader res) name = [].
Proof.
  intros Hcanon Hname. unfold relayedHeader.
  pose proof (stripHopHeaders_canonicalKeys _ Hcanon) as Hc.
  assert (Hgone : forall j, isHopName j = true ->
                    stripHopHeaders (Response.Header res) !! j = None).
  { intros j Hj. destruct (stripHopHeaders (Response.Header res) !! j) as [vs|] eqn:Hlk;
      [|reflexivity].
    exfalso. pose proof (Hc j vs Hlk) as Hcj. cbn beta in Hcj.
    pose proof (isHopName_canonical j Hj) as Hin. rewrite Hcj in Hin.
    rewrite stripHopHeaders_lookup in Hlk.
    now rewrite bool_decide_eq_true_2 in Hlk. }
  split.
  - rewrite (copyHeader_lookup _ _ Hc), (Hgone name Hname). apply lookup_empty.
  - unfold header.Values. rewrite (copyHeader_lookup _ _ Hc).
    assert (Hj : isHopName (textproto.CanonicalMIMEHeaderKey name) = true).
    { apply isHopName_hopHeaders. now apply isHopName_canonical. }
    rewrite (Hgone _ Hj). now rewrite lookup_empty.
Qed.

Lemma len_zero (s : string) : gostring.len s = 0 -> s = EmptyString.
Proof. destruct s; [reflexivity|]. unfold gostring.len. simpl. lia. Qed.

Lemma serve_logged_proxy_response (target : url.URL) (token : string)
    (transport : Request.t -> Response.t + string) (req : Request.t)
    (res : Response.t) (log : list LogLine) (ip : string) :
  transport (httputil.Director (newMistProxy target token) req) = inl res ->
  relayable res ->
  remoteIPOf (Request.RemoteAddr req) = Some ip ->
  http.serve (loggingMiddleware (httputil.ServeHTTP (newMistProxy target token) transport))
             req log =
  (Returned tt,
   {| rw := relayedResponse res;
      stderr := (log ++ [accessLine req (Response.StatusCode res) ip])%list;
      steps := [SentUpstream (httputil.Director (newMistProxy target token) req);
                ResponseRewrite res] |}).
Proof.
  intros Hres (Hcode & Herr & Hbody) Hip.
  unfold http.serve, loggingMiddleware, bind at 1. rewrite Hip.
  unfold httputil.ServeHTTP, bind at 1. cbn [step]. rewrite Hres.
  unfold relayedResponse, relayedHeader.
  destruct res as [code hdr body berr].
  cbn [Response.StatusCode Response.Body Response.BodyErr Response.Header] in *. subst berr.
  assert (H1 : (code <? 100) || (999 <? code) = false).
  { apply orb_false_iff. split; [apply Z.ltb_ge | apply Z.ltb_ge]; lia. }
  assert (H2 : (100 <=? code) && (code <=? 199) && negb (code =? http.StatusSwitchingProtocols)
               = false).
  { replace (code <=? 199) with false by (symmetry; apply Z.leb_gt; lia).
    now rewrite andb_false_r. }
  unfold httputil.modifyResponse, loggingResponseWriter_WriteHeader, bind.
  cbn -[stripHopHeaders httputil.copyHeader Z.leb Z.ltb Z.eqb http.bodyAllowedForStatus gostring.len embedded http.response_WriteHeader http.response_Write].
  unfold embedded at 1, http.response_WriteHeader, bind.
  cbn -[stripHopHeaders httputil.copyHeader Z.leb Z.ltb Z.eqb http.bodyAllowedForStatus gostring.len embedded http.response_WriteHeader http.response_Write].
  rewrite H1, H2.
  cbn -[stripHopHeaders httputil.copyHeader Z.leb Z.ltb Z.eqb http.bodyAllowedForStatus gostring.len embedded http.response_WriteHeader http.response_Write].
  unfold embedded, http.response_Write, bind.
  cbn -[stripHopHeaders httputil.copyHeader Z.leb Z.ltb Z.eqb http.bodyAllowedForStatus gostring.len embedded http.response_WriteHeader http.response_Write].
  destruct (gostring.len body =? 0) eqn:Hlen.
  - apply Z.eqb_eq, len_zero in Hlen. subst body. reflexivity.
  - destruct Hbody as [->|Hallowed]; [discriminate Hlen|].
    rewrite Hallowed. reflexivity.
Qed.

Ltac relay_cbn :=
  cbn -[stripHopHeaders httputil.copyHeader Z.leb Z.ltb Z.eqb http.bodyAllowedForStatus
        gostring.len embedded http.response_WriteHeader http.response_Write String.eqb].

Ltac relay_run :=
  repeat first
    [ progress relay_cbn
    | progress unfold embedded, http.response_WriteHeader, http.response_Write, bind
    | match goal with
      | |- context [if ?b then _ else _] => destruct b eqn:?
      | |- context [match ?o with Some _ => _ | None => _ end] => is_var o; destruct o
      end ].

Lemma serve_proxy_sentHeader (target : url.URL) (token : string)
    (transport : Request.t -> Response.t + string) (req : Request.t)
    (res : Response.t) (log : list LogLine) :
  transport (httputil.Director (newMistProxy target token) req) = inl res ->
  let sent :=
    http.sentHeader
      (rw (snd (http.serve
                  (loggingMiddleware (httputil.ServeHTTP (newMistProxy target token) transport))
                  req log))) in
  sent = empty \/ sent = relayedHeader res.
Proof.
  intros Hres.
  destruct (remoteIPOf_Some (Request.RemoteAddr req)) as [ip Hip].
  unfold http.serve, loggingMiddleware, bind at 1. rewrite Hip.
  unfold httputil.ServeHTTP, bind at 1. cbn [step]. rewrite Hres.
  unfold relayedHeader.
  destruct res as [code hdr body berr].
  unfold httputil.modifyResponse, loggingResponseWriter_WriteHeader, bind.
  relay_run; auto.
Qed.

(** X6: when the upstream answers and the whole body arrives, the
    client is sent the upstream's status code and body unchanged, the
    failure translator does not run, and the one access record that is
    logged carries the upstream's status code and the URL of the inbound
    request. *)
Theorem proxy_relays_response (target : url.URL) (token : string)
    (transport : Request.t -> Response.t + string) (req : Request.t)
    (res : Response.t) (log : list LogLine) :
  transport (httputil.Director (newMistProxy target token) req) = inl res ->
  relayable res ->
  let served :=
    http.serve (loggingMiddleware (httputil.ServeHTTP (newMistProxy target token) transport))
               req log in
  exists ip,
    remoteIPOf (Request.RemoteAddr req) = Some ip /\
    fst served = Returned tt /\
    http.status (rw (snd served)) = Response.StatusCode res /\
    http.written (rw (snd served)) = Response.Body res /\
    stderr (snd served) = (log ++ [accessLine req (Response.StatusCode res) ip])%list /\
    steps (snd served) =
      [SentUpstream (httputil.Director (newMistProxy target token) req);
       ResponseRewrite res] /\
    forall err, FailureTranslated err ∉ steps (snd served).
Proof.
  intros Hres Hrel served. unfold served.
  destruct (remoteIPOf_Some (Request.RemoteAddr req)) as [ip Hip].
  exists ip. split; [exact Hip|].
  rewrite (serve_logged_proxy_response target token transport req res log ip Hres Hrel Hip).
  cbn [fst snd rw stderr steps].
  split; [reflexivity|]. split; [reflexivity|]. split; [reflexivity|].
  split; [reflexivity|]. split; [reflexivity|].
  intros err Hin.
  apply elem_of_cons in Hin as [Hin|Hin]; [discriminate|].
  apply elem_of_cons in Hin as [Hin|Hin]; [discriminate|].
  now apply elem_of_nil in Hin.
Qed.

Lemma proxy_relays_response_witness :
  exists ip,
    remoteIPOf (Request.RemoteAddr sitesRequest) = Some ip /\
    let served :=
      http.serve (loggingMiddleware
                    (httputil.ServeHTTP (newMistProxy mistTarget "secret") chunkedUpstream))
                 sitesRequest [] in
    http.status (rw (snd served)) = 404 /\
    http.written (rw (snd served)) = "{}" /\
    stderr (snd served) = [accessLine sitesRequest 404 ip].
Proof.
  assert (Hrel : relayable {| Response.StatusCode := 404;
                              Response.Header := {[ "Content-Type" := ["application/json"];
                                                    "Transfer-Encoding" := ["chunked"];
                                                    "Connection" := ["close"] ]};
                              Response.Body := "{}";
                              Response.BodyErr := None |}).
  { split; [cbn; lia|]. split; [reflexivity|]. right. reflexivity. }
  destruct (proxy_relays_response mistTarget "secret" chunkedUpstream sitesRequest _ []
              eq_refl Hrel) as (ip & Hip & _ & Hs & Hw & Hl & _).
  exists ip. split; [exact Hip|]. cbv zeta. split; [exact Hs|]. split; [exact Hw|exact Hl].
Defined.

(** X7: a response of the upstream whose header names are in canonical
    form, as the transport delivers them, reaches the client without any
    of the eight hop-by-hop headers: the headers sent hold no entry for
    any of the names under any letter-casing, whatever the status code
    and whether or not the body arrives.  (The response has no trailers
    here; for one that has, the library announces them in a Trailer
    header of its own after the hook has run.) *)
Theorem proxy_response_no_hop_headers (target : url.URL) (token : string)
    (transport : Request.t -> Response.t + string) (req : Request.t)
    (res : Response.t) (log : list LogLine) (name : string) :
  transport (httputil.Director (newMistProxy target token) req) = inl res ->
  canonicalKeys (Response.Header res) ->
  isHopName name = true ->
  let sent :=
    http.sentHeader
      (rw (snd (http.serve
                  (loggingMiddleware (httputil.ServeHTTP (newMistProxy target token) transport))
                  req log))) in
  sent !! name = None /\ header.Values sent name = [].
Proof.
  intros Hres Hcanon Hname sent.
  destruct (serve_proxy_sentHeader target token transport req res log Hres) as [H|H];
    fold sent in H; rewrite H.
  - unfold header.Values. now rewrite !lookup_empty.
  - now apply relayedHeader_hop.
Qed.

Lemma proxy_response_no_hop_headers_witness :
  http.sentHeader
    (rw (snd (http.serve
                (loggingMiddleware
                   (httputil.ServeHTTP (newMistProxy mistTarget "secret") chunkedUpstream))
                sitesRequest [])))
  !! "Transfer-Encoding" = None.
Proof.
  apply (proxy_response_no_hop_headers mistTarget "secret" chunkedUpstream sitesRequest
           {| Response.StatusCode := 404;
              Response.Header := {[ "Content-Type" := ["application/json"];
                                    "Transfer-Encoding" := ["chunked"];
                                    "Connection" := ["close"] ]};
              Response.Body := "{}";
              Response.BodyErr := None |} [] "Transfer-Encoding").
  - reflexivity.
  - apply (bool_decide_unpack _). vm_compute. reflexivity.
  - reflexivity.
Defined.

(** X8: when the body of the upstream's response breaks off, the relay
    aborts the handler with [http.ErrAbortHandler] after the status was
    sent.  The log gains at most the line the library writes for the
    read error; the panic passes through the logging middleware, so no
    access record is logged for the request: every line the log holds
    afterwards was there before or is not an access record. *)
Theorem proxy_aborted_relay (target : url.URL) (token : string)
    (transport : Request.t -> Response.t + string) (req : Request.t)
    (res : Response.t) (e : string) (log : list LogLine) :
  transport (httputil.Director (newMistProxy target token) req) = inl res ->
  200 <= Response.StatusCode res <= 999 ->
  Response.BodyErr res = Some e ->
  let served :=
    http.serve (loggingMiddleware (httputil.ServeHTTP (newMistProxy target token) transport))
               req log in
  fst served = Panicked http.ErrAbortHandler /\
  http.status (rw (snd served)) = Response.StatusCode res /\
  (stderr (snd served) = log \/
   stderr (snd served) =
     (log ++ [{| format := httputil.readErrorFormat; args := [ArgString e] |}])%list) /\
  forall line, line ∈ stderr (snd served) ->
               line ∈ log \/ format line <> accessLogFormat.
Proof.
  intros Hres Hcode Herr served.
  assert (Hrun : fst served = Panicked http.ErrAbortHandler /\
                 http.status (rw (snd served)) = Response.StatusCode res /\
                 (stderr (snd served) = log \/
                  stderr (snd served) =
                    (log ++ [{| format := httputil.readErrorFormat;
                                args := [ArgString e] |}])%list)).
  { unfold served.
    destruct (remoteIPOf_Some (Request.RemoteAddr req)) as [ip Hip].
    unfold http.serve, loggingMiddleware, bind at 1. rewrite Hip.
    unfold httputil.ServeHTTP, bind at 1. cbn [step]. rewrite Hres.
    destruct res as [code hdr body berr].
    cbn [Response.StatusCode Response.Body Response.BodyErr Response.Header] in *.
    subst berr.
    assert (H1 : (code <? 100) || (999 <? code) = false).
    { apply orb_false_iff. split; [apply Z.ltb_ge | apply Z.ltb_ge]; lia. }
    assert (H2 : (100 <=? code) && (code <=? 199) &&
                 negb (code =? http.StatusSwitchingProtocols) = false).
    { replace (code <=? 199) with false by (symmetry; apply Z.leb_gt; lia).
      now rewrite andb_false_r. }
    unfold httputil.modifyResponse, loggingResponseWriter_WriteHeader, bind.
    relay_cbn.
    unfold embedded at 1, http.response_WriteHeader, bind.
    relay_cbn. rewrite H1, H2. relay_cbn.
    unfold embedded, http.response_Write, bind. relay_cbn.
    destruct (gostring.len body =? 0); [|destruct (negb (http.bodyAllowedForStatus code))];
      relay_cbn; try destruct (String.eqb e httputil.contextCanceled); relay_cbn;
      (split; [reflexivity|]; split; [reflexivity|]); auto. }
  destruct Hrun as (Hpanic & Hstatus & Hlog).
  split; [exact Hpanic|]. split; [exact Hstatus|]. split; [exact Hlog|].
  intros line Hline. destruct Hlog as [Hlog|Hlog]; rewrite Hlog in Hline.
  - now left.
  - apply elem_of_app in Hline as [Hin|Hin]; [now left|].
    apply list_elem_of_singleton in Hin. subst line. right. discriminate.
Qed.

Lemma proxy_aborted_relay_witness :
  fst (http.serve
         (loggingMiddleware (httputil.ServeHTTP (newMistProxy originTarget "secret") brokenBody))
         sitesRequest [])
  = Panicked http.ErrAbortHandler.
Proof.
  apply (proxy_aborted_relay originTarget "secret" brokenBody sitesRequest
           {| Response.StatusCode := 200;
              Response.Header := {[ "Content-Type" := ["application/json"] ]};
              Response.Body := "[{";
              Response.BodyErr := Some "unexpected EOF" |} "unexpected EOF" []).
  - reflexivity.
  - cbn. lia.
  - reflexivity.
Defined.

(** * The failure translator and the log *)

(** X9: a round trip that fails is recorded once, with the text of the
    error, before the access record of the request, which carries status
    502; nothing else is logged. *)
Theorem proxy_failure_logged (target : url.URL) (token : string)
    (transport : Request.t -> Response.t + string) (req : Request.t)
    (err : string) (log : list LogLine) :
  transport (httputil.Director (newMistProxy target token) req) = inr err ->
  exists ip,
    remoteIPOf (Request.RemoteAddr req) = Some ip /\
    stderr (snd (http.serve
                   (loggingMiddleware
                      (httputil.ServeHTTP (newMistProxy target token) transport))
                   req log))
    = (log ++ [proxyErrorLine err; accessLine req http.StatusBadGateway ip])%list.
Proof.
  intros Hfail.
  destruct (remoteIPOf_Some (Request.RemoteAddr req)) as [ip Hip].
  exists ip. split; [exact Hip|].
  now rewrite (serve_logged_proxy_failure target token transport req err log ip Hfail Hip).
Qed.

Lemma proxy_failure_logged_witness :
  exists ip,
    remoteIPOf (Request.RemoteAddr sitesRequest) = Some ip /\
    stderr (snd (http.serve
                   (loggingMiddleware
                      (httputil.ServeHTTP (newMistProxy mistTarget "secret") unreachable))
                   sitesRequest []))
    = [proxyErrorLine "dial tcp 203.0.113.9:443: connect: connection refused";
       accessLine sitesRequest 502 ip].
Proof.
  apply (proxy_failure_logged mistTarget "secret" unreachable sitesRequest
           "dial tcp 203.0.113.9:443: connect: connection refused" []).
  reflexivity.
Defined.

(** X10: the credential stays between the proxy and the upstream.  For
    two credentials on which the upstream behaves alike for a request,
    the proxy behind the logging middleware ends the same way, the
    client is sent the same response and the log holds the same lines:
    neither the response nor the log depends on the credential. *)
Theorem credential_confined (target : url.URL) (token token' : string)
    (transport : Request.t -> Response.t + string) (req : Request.t)
    (log : list LogLine) :
  transport (httputil.Director (newMistProxy target token) req) =
  transport (httputil.Director (newMistProxy target token') req) ->
  let served :=
    http.serve (loggingMiddleware (httputil.ServeHTTP (newMistProxy target token) transport))
               req log in
  let served' :=
    http.serve (loggingMiddleware (httputil.ServeHTTP (newMistProxy target token') transport))
               req log in
  fst served = fst served' /\
  rw (snd served) = rw (snd served') /\
  stderr (snd served) = stderr (snd served').
Proof.
  intros Hsame served served'. unfold served, served'.
  destruct (remoteIPOf_Some (Request.RemoteAddr req)) as [ip Hip].
  unfold http.serve, loggingMiddleware, bind at 1.
  unfold bind at 2. rewrite Hip.
  unfold httputil.ServeHTTP, bind at 1. unfold bind at 2. cbn [step]. rewrite Hsame.
  destruct (transport (httputil.Director (newMistProxy target token') req))
    as [[code hdr body berr]|err].
  - unfold httputil.modifyResponse, loggingResponseWriter_WriteHeader, bind.
    relay_run; repeat split.
  - repeat split.
Qed.

Lemma credential_confined_witness :
  rw (snd (http.serve
             (loggingMiddleware
                (httputil.ServeHTTP (newMistProxy mistTarget "secret") chunkedUpstream))
             sitesRequest []))
  = rw (snd (http.serve
               (loggingMiddleware
                  (httputil.ServeHTTP (newMistProxy mistTarget "another") chunkedUpstream))
               sitesRequest [])) /\
  stderr (snd (http.serve
                 (loggingMiddleware
                    (httputil.ServeHTTP (newMistProxy mistTarget "secret") unreachable))
                 sitesRequest []))
  = stderr (snd (http.serve
                   (loggingMiddleware
                      (httputil.ServeHTTP (newMistProxy mistTarget "another") unreachable))
                   sitesRequest [])).
Proof.
  split.
  - apply (credential_confined mistTarget "secret" "another" chunkedUpstream sitesRequest []).
    reflexivity.
  - apply (credential_confined mistTarget "secret" "another" unreachable sitesRequest []).
    reflexivity.
Defined.

(** * The health reporter and the log *)

(** X11: a health probe is logged like any other request: one access
    record with status 200, the method and URL of the probe and the host
    it came from, after what the log already held. *)
Theorem health_logged (target : url.URL) (token : string)
    (transport : Request.t -> Response.t + string) (req : Request.t)
    (log : list LogLine) :
  url.Path (Request.URL req) = "/health" ->
  exists ip,
    remoteIPOf (Request.RemoteAddr req) = Some ip /\
    stderr (snd (http.serve (handler target token transport) req log))
    = (log ++ [accessLine req http.StatusOK ip])%list.
Proof.
  intros Hpath.
  destruct (remoteIPOf_Some (Request.RemoteAddr req)) as [ip Hip].
  exists ip. split; [exact Hip|].
  now rewrite (serve_health target token transport req log ip Hpath Hip).
Qed.

Lemma health_logged_witness :
  exists ip,
    remoteIPOf (Request.RemoteAddr (healthRequest "HEAD")) = Some ip /\
    stderr (snd (http.serve (handler mistTarget "secret" unreachable) (healthRequest "HEAD") []))
    = [accessLine (healthRequest "HEAD") 200 ip].
Proof.
  apply (health_logged mistTarget "secret" unreachable (healthRequest "HEAD") []).
  reflexivity.
Defined.

(** * The access record of a proxied request *)

(** X12: for the proxy behind the logging middleware the access record
    is accurate.  When the upstream answers with final status codes only
    (200 and above, as the transport delivers them), every request
    whose handler returns (a relayed response or a translated failure)
    leaves as the last line of the log one access record whose status
    is the status the client was sent. *)
Theorem access_record_matches (target : url.URL) (token : string)
    (transport : Request.t -> Response.t + string) (req : Request.t)
    (log : list LogLine) (w : World http.response) :
  (forall out res, transport out = inl res -> 200 <= Response.StatusCode res) ->
  http.serve (loggingMiddleware (httputil.ServeHTTP (newMistProxy target token) transport))
             req log = (Returned tt, w) ->
  exists ip earlier,
    remoteIPOf (Request.RemoteAddr req) = Some ip /\
    stderr w = (earlier ++ [accessLine req (http.status (rw w)) ip])%list.
Proof.
  intros Hfinal Hserve.
  destruct (remoteIPOf_Some (Request.RemoteAddr req)) as [ip Hip].
  exists ip.
  destruct (transport (httputil.Director (newMistProxy target token) req))
    as [res|err] eqn:Hres.
  - pose proof (Hfinal _ _ Hres) as Hcode.
    revert Hserve.
    unfold http.serve, loggingMiddleware, bind at 1. rewrite Hip.
    unfold httputil.ServeHTTP, bind at 1. cbn [step]. rewrite Hres.
    destruct res as [code hdr body berr].
    cbn [Response.StatusCode] in Hcode.
    assert (H2 : (100 <=? code) && (code <=? 199) && negb (code =? http.StatusSwitchingProtocols)
                 = false).
    { replace (code <=? 199) with false by (symmetry; apply Z.leb_gt; lia).
      now rewrite andb_false_r. }
    unfold httputil.modifyResponse, loggingResponseWriter_WriteHeader, bind.
    relay_cbn.
    unfold embedded at 1, http.response_WriteHeader, bind.
    relay_cbn. rewrite H2.
    relay_run; intros Hserve; try discriminate Hserve;
      injection Hserve as <-; eexists; split; reflexivity.
  - rewrite (serve_logged_proxy_failure target token transport req err log ip Hres Hip)
      in Hserve.
    injection Hserve as <-. exists (log ++ [proxyErrorLine err])%list.
    split; [exact Hip|]. cbn [stderr rw http.status badGatewayResponse].
    now rewrite <- app_assoc.
Qed.

Lemma access_record_matches_witness :
  let served :=
    http.serve (loggingMiddleware
                  (httputil.ServeHTTP (newMistProxy mistTarget "secret") chunkedUpstream))
               sitesRequest [] in
  exists ip earlier,
    remoteIPOf (Request.RemoteAddr sitesRequest) = Some ip /\
    stderr (snd served)
    = (earlier ++ [accessLine sitesRequest (http.status (rw (snd served))) ip])%list.
Proof.
  intros served.
  apply (access_record_matches mistTarget "secret" chunkedUpstream sitesRequest []).
  - intros out res [= <-]. cbn. lia.
  - vm_compute. reflexivity.
Defined.

(** * The middleware and the response *)

(** X13: the middleware does not change what the client is sent.  For
    a handler given by the calls it makes on its response writer, the
    run through the middleware ends as the run of the handler alone
    does (it returns, or panics with the same value), leaves the same
    response on the server's writer and makes the same upstream steps;
    the wrapper passes every call on to the writer it embeds. *)
Theorem loggingMiddleware_transparent (cs : list WriterCall) (req : Request.t)
    (log : list LogLine) :
  let logged := http.serve (loggingMiddleware (handlerOf cs)) req log in
  let bare := http.serve (handlerOf cs) req log in
  fst logged = fst bare /\
  rw (snd logged) = rw (snd bare) /\
  steps (snd logged) = steps (snd bare).
Proof.
  intros logged bare. unfold logged, bare.
  destruct (remoteIPOf_Some (Request.RemoteAddr req)) as [ip Hip].
  unfold http.serve, bind.
  rewrite (loggingMiddleware_run cs req _ ip Hip).
  change (handlerOf cs http.response _ req) with (calls (W:=http.response) cs).
  destruct (calls cs {| rw := http.newResponse; stderr := log; steps := [] |})
    as [[[]|v] [[hh wrote st sh inf body] l ps]].
  - destruct wrote; repeat split.
  - destruct (String.eqb v http.ErrAbortHandler); repeat split.
Qed.

(** X14: when the handler panics the middleware logs no access record:
    the line is written after [next.ServeHTTP] returns, and not in a
    deferred call.  Every line the log holds after the request was there
    before it or is not an access record. *)
Theorem loggingMiddleware_no_record_on_panic (cs : list WriterCall) (req : Request.t)
    (log : list LogLine) (v : string) (w : World http.response) :
  http.serve (loggingMiddleware (handlerOf cs)) req log = (Panicked v, w) ->
  Forall (fun line => line ∈ log \/ format line <> accessLogFormat) (stderr w).
Proof.
  intros Hserve. apply Forall_forall. intros line Hline.
  exact (loggingMiddleware_panic cs req log v w Hserve line Hline).
Qed.

Lemma loggingMiddleware_no_record_on_panic_witness :
  let served := http.serve (loggingMiddleware (handlerOf invalidCode)) sitesRequest [] in
  fst served = Panicked "invalid WriteHeader code 42" /\
  Forall (fun line => line ∈ [] \/ format line <> accessLogFormat) (stderr (snd served)).
Proof.
  intros served. split; [reflexivity|].
  apply (loggingMiddleware_no_record_on_panic invalidCode sitesRequest []
           "invalid WriteHeader code 42" (snd served)).
  vm_compute. reflexivity.
Defined.

(** * Remote addresses that do not split *)

(** X15: a remote address without a colon, and one with two or more
    colons that does not begin with a bracket (an IPv6 address written
    without brackets), is logged as it is: [net.SplitHostPort] reports
    an error for it and the middleware falls back to the address. *)
Theorem remoteIPOf_fallback :
  (forall addr, lacks addr ":" = true -> remoteIPOf addr = Some addr) /\
  (forall host port,
      lacks host ":" = false -> gostring.HasPrefix host "[" = false ->
      lacks port ":" = true ->
      remoteIPOf (host +:+ ":" +:+ port) = Some (host +:+ ":" +:+ port)).
Proof.
  split.
  - intros addr Hno. unfold remoteIPOf, net.SplitHostPort.
    pose proof (lacks_LastIndexByte addr ":" Hno) as Hi. apply Z.leb_gt in Hi.
    replace (gostring.LastIndexByte addr ":" <? 0) with true
      by (symmetry; apply Z.ltb_lt; exact Hi).
    reflexivity.
  - intros host port Hcolon Hbr Hp.
    remember (host +:+ ":" +:+ port) as s eqn:Es.
    pose proof (len_nonneg host) as Hlh. pose proof (len_nonneg port) as Hlp.
    assert (Hlen : gostring.len s = gostring.len host + 1 + gostring.len port).
    { subst s. rewrite len_app, append_cons, append_nil_l, len_cons. lia. }
    assert (Hi : gostring.LastIndexByte s ":" = gostring.len host).
    { subst s. rewrite LastIndexByte_app, append_cons, append_nil_l. simpl.
      rewrite (lacks_LastIndexByte port ":" Hp). simpl. lia. }
    assert (Hc0 : exists c0, gostring.byteAt s 0 = Some c0 /\ bytes.eqb c0 "[" = false).
    { subst s. destruct host as [|x host']; [discriminate Hcolon|].
      exists x. split; [reflexivity|].
      unfold gostring.HasPrefix in Hbr. cbn in Hbr.
      unfold bytes.eqb. destruct (Ascii.eqb x "[") eqn:Hx; [|reflexivity].
      exfalso. apply Ascii.eqb_eq in Hx. subst x.
      cbn in Hbr. discriminate Hbr. }
    destruct Hc0 as (c0 & H0 & Hne).
    unfold remoteIPOf, net.SplitHostPort. rewrite Hi.
    replace (gostring.len host <? 0) with false by (symmetry; apply Z.ltb_ge; lia).
    rewrite H0. cbn [mbind option_bind]. rewrite Hne.
    rewrite slice_Some by lia. cbn [mbind option_bind].
    replace (Z.to_nat (gostring.len host - 0)) with (String.length host)
      by (unfold gostring.len; lia).
    change (gostring.drop (Z.to_nat 0) s) with s.
    rewrite Es at 1. rewrite take_app_exact.
    unfold lacks in Hcolon. apply Z.ltb_ge in Hcolon.
    replace (0 <=? gostring.IndexByte host ":") with true
      by (symmetry; apply Z.leb_le; exact Hcolon).
    reflexivity.
Qed.

Lemma remoteIPOf_fallback_witness :
  remoteIPOf "localhost" = Some "localhost" /\
  remoteIPOf "2001:db8::1" = Some "2001:db8::1".
Proof.
  destruct remoteIPOf_fallback as [Hnone Hmany]. split.
  - apply Hnone. reflexivity.
  - apply (Hmany "2001:db8:" "1"); reflexivity.
Defined.
